(** * ALSA MIDI input wrapper: [pysynth/wrappers/midi/alsa/midi_alsa.c]

    A shallow embedding of the C translation unit and the properties of
    its event normalisation pipeline.

    - C integers are [Z] with their wrap-around written out.
    - The two unions of ALSA's [snd_seq_event_t] are kept as the bytes
      they occupy; a member access is a view on those bytes.
    - The three statics, the standard output and the sequencer driver
      form the [world]; every C function is a computation in the monad
      [M], which threads the world and can stop the process ([exit]) or
      fault (a null pointer dereference). *)

From Stdlib Require Import ZArith List String Ascii Bool Lia.
From Stdlib Require Import DecimalString HexadecimalString.
Import ListNotations.

Local Open Scope string_scope.
Local Open Scope Z_scope.

(** ** C integer types *)

(** Value of an [unsigned char]. *)
Definition u8 (z : Z) : Z := Z.land z 255.

(** Value of an [unsigned int] (32 bits on every ALSA target). *)
Definition u32 (z : Z) : Z := Z.land z 4294967295.

(** Value of a [signed int]: two's complement reading of the low 32 bits. *)
Definition s32 (z : Z) : Z :=
  if Z.testbit z 31 then u32 z - 4294967296 else u32 z.

(** [w] bytes of a little-endian object, starting at byte offset [off]. *)
Definition bytes_at (obj : Z) (off w : Z) : Z :=
  Z.land (Z.shiftr obj (8 * off)) (Z.ones (8 * w)).

(** ** The driver's raw event, [snd_seq_event_t]

    The declaration lives in <alsa/seq_event.h>, outside this
    repository.  Layout of the members [midi_alsa.c] reads:
<<
    unsigned char type;
    union { unsigned int tick;
            struct { unsigned int tv_sec, tv_nsec; } time; } time;
    union { struct { unsigned char channel, note, velocity, off_velocity;
                     unsigned int duration; } note;
            struct { unsigned char channel, unused[3];
                     unsigned int param; signed int value; } control;
            ... } data;
>>
    [raw_time] holds the 8 bytes of the [time] union and [raw_data] the
    12 bytes of the [data] union, each read as a little-endian number. *)
Record snd_seq_event_t : Type := mk_raw {
  raw_type  : Z;
  raw_flags : Z;
  raw_tag   : Z;
  raw_queue : Z;
  raw_time  : Z;
  raw_data  : Z
}.

(** [ev->type] *)
Definition ev_type (ev : snd_seq_event_t) : Z :=
  u8 (raw_type ev).
(** [ev->time.tick] *)
Definition ev_time_tick (ev : snd_seq_event_t) : Z :=
  bytes_at (raw_time ev) 0 4.
(** [ev->time.time.tv_sec] *)
Definition ev_time_time_tv_sec (ev : snd_seq_event_t) : Z :=
  bytes_at (raw_time ev) 0 4.
(** [ev->time.time.tv_nsec] *)
Definition ev_time_time_tv_nsec (ev : snd_seq_event_t) : Z :=
  bytes_at (raw_time ev) 4 4.
(** [ev->data.note.channel] *)
Definition ev_data_note_channel (ev : snd_seq_event_t) : Z :=
  bytes_at (raw_data ev) 0 1.
(** [ev->data.note.note] *)
Definition ev_data_note_note (ev : snd_seq_event_t) : Z :=
  bytes_at (raw_data ev) 1 1.
(** [ev->data.note.velocity] *)
Definition ev_data_note_velocity (ev : snd_seq_event_t) : Z :=
  bytes_at (raw_data ev) 2 1.
(** [ev->data.note.off_velocity] *)
Definition ev_data_note_off_velocity (ev : snd_seq_event_t) : Z :=
  bytes_at (raw_data ev) 3 1.
(** [ev->data.note.duration] *)
Definition ev_data_note_duration (ev : snd_seq_event_t) : Z :=
  bytes_at (raw_data ev) 4 4.
(** [ev->data.control.param] *)
Definition ev_data_control_param (ev : snd_seq_event_t) : Z :=
  bytes_at (raw_data ev) 4 4.
(** [ev->data.control.value] *)
Definition ev_data_control_value (ev : snd_seq_event_t) : Z :=
  s32 (bytes_at (raw_data ev) 8 4).

(** Event type codes of <alsa/seq_event.h>. *)
Definition SND_SEQ_EVENT_NOTEON : Z := 6.
Definition SND_SEQ_EVENT_NOTEOFF : Z := 7.
Definition SND_SEQ_EVENT_CONTROLLER : Z := 10.

(** ** The normalised event, [struct ALSAEvent] *)
Record ALSAEvent : Type := mk_ALSAEvent {
  type         : Z;  (* unsigned char *)
  tick_time    : Z;  (* unsigned int  *)
  time_sec     : Z;  (* unsigned int  *)
  time_nano    : Z;  (* unsigned int  *)
  note         : Z;  (* unsigned char *)
  velocity     : Z;  (* unsigned char *)
  off_velocity : Z;  (* unsigned char *)
  duration     : Z;  (* unsigned int  *)
  param        : Z;  (* unsigned int  *)
  value        : Z;  (* signed int    *)
  channel      : Z   (* unsigned char *)
}.

(** A static object starts out zeroed. *)
Definition zero_ALSAEvent : ALSAEvent :=
  mk_ALSAEvent 0 0 0 0 0 0 0 0 0 0 0.

(** What the eleven assignments of [create_pack] leave in the slot, each
    with the conversion to the type of the member assigned
    (see [create_pack_Some]). *)
Definition pack (ev : snd_seq_event_t) : ALSAEvent :=
  {| type         := u8 (ev_type ev);
     tick_time    := u32 (ev_time_tick ev);
     time_sec     := u32 (ev_time_time_tv_sec ev);
     time_nano    := u32 (ev_time_time_tv_nsec ev);
     note         := u8 (ev_data_note_note ev);
     velocity     := u8 (ev_data_note_velocity ev);
     off_velocity := u8 (ev_data_note_off_velocity ev);
     duration     := u32 (ev_data_note_duration ev);
     param        := u32 (ev_data_control_param ev);
     value        := s32 (ev_data_control_value ev);
     channel      := u8 (ev_data_note_channel ev) |}.

(** ** [printf] conversions *)

(** The character [dq] is the double quote. *)
Definition dq : string := String (ascii_of_nat 34) EmptyString.

(** Left padding with spaces up to a minimum field width. *)
Definition pad_left (width : nat) (s : string) : string :=
  string_of_list_ascii (repeat " "%char (width - String.length s)%nat) ++ s.

(** [%d] applied to an [int]. *)
Definition fmt_d (z : Z) : string :=
  DecimalString.NilZero.string_of_int (Z.to_int z).

(** Lower-case hexadecimal digits of a natural number, ["0"] for zero. *)
Definition hex_digits (z : Z) : string :=
  HexadecimalString.NilZero.string_of_uint (N.to_hex_uint (Z.to_N z)).

(** [%2x]: the argument read as an [unsigned int], minimum width 2. *)
Definition fmt_2x (z : Z) : string := pad_left 2 (hex_digits (u32 z)).

(** [%p] as glibc prints a non-null pointer. *)
Definition fmt_p (addr : Z) : string := "0x" ++ hex_digits addr.

(** ** The sequencer driver

    alsa-lib is the environment of the program.  Its answers are a
    function of the calls made so far, so that any deterministic driver
    is covered. *)
Inductive driver_call : Type :=
| call_snd_seq_open
| call_snd_seq_set_client_name
| call_snd_seq_create_simple_port
| call_snd_seq_event_input.

(** A [const snd_seq_event_t *]: [None] is [NULL], [Some ev] points to a
    driver-owned event [ev]. *)
Definition raw_ptr : Type := option snd_seq_event_t.
Definition NULL : raw_ptr := None.

Record driver : Type := mk_driver {
  (* return code, and the handle stored through the first argument *)
  snd_seq_open : list driver_call -> Z * option Z;
  snd_seq_set_client_name : list driver_call -> Z;
  snd_seq_create_simple_port : list driver_call -> Z;
  (* return code, and the pointer stored through the second argument,
     when the call stores one *)
  snd_seq_event_input : list driver_call -> Z * option raw_ptr
}.

(** ** The world: statics, standard output, driver *)
Record world : Type := mk_world {
  seq_handle : Z;            (* static snd_seq_t *seq_handle; 0 is NULL *)
  event      : ALSAEvent;    (* static struct ALSAEvent event *)
  in_port    : Z;            (* static int in_port *)
  event_addr : Z;            (* the address of [event] *)
  stdout     : list string;  (* lines written, oldest first *)
  drv        : driver;
  history    : list driver_call  (* driver calls made, oldest first *)
}.

Definition set_seq_handle (h : Z) (w : world) : world :=
  mk_world h (event w) (in_port w) (event_addr w) (stdout w) (drv w) (history w).
Definition set_event (e : ALSAEvent) (w : world) : world :=
  mk_world (seq_handle w) e (in_port w) (event_addr w) (stdout w) (drv w) (history w).
Definition set_in_port (p : Z) (w : world) : world :=
  mk_world (seq_handle w) (event w) p (event_addr w) (stdout w) (drv w) (history w).
Definition set_stdout (o : list string) (w : world) : world :=
  mk_world (seq_handle w) (event w) (in_port w) (event_addr w) o (drv w) (history w).
Definition set_history (h : list driver_call) (w : world) : world :=
  mk_world (seq_handle w) (event w) (in_port w) (event_addr w) (stdout w) (drv w) h.

(** The world a freshly loaded process starts in. *)
Definition initial_world (d : driver) (addr : Z) : world :=
  mk_world 0 zero_ALSAEvent 0 addr [] d [].

(** ** The monad of C computations *)
Inductive outcome (A : Type) : Type :=
| Ret (a : A) (w : world)        (* the call returns *)
| Exit (status : Z) (w : world)  (* the process has called [exit] *)
| Fault (w : world).             (* a null pointer was dereferenced *)
Arguments Ret {A} a w.
Arguments Exit {A} status w.
Arguments Fault {A} w.

Definition M (A : Type) : Type := world -> outcome A.

Definition ret {A : Type} (a : A) : M A := fun w => Ret a w.

Definition bind {A B : Type} (m : M A) (k : A -> M B) : M B :=
  fun w =>
    match m w with
    | Ret a w' => k a w'
    | Exit status w' => Exit status w'
    | Fault w' => Fault w'
    end.

Notation "x <- m ;; k" := (bind m (fun x => k))
  (at level 61, m at next level, right associativity).
Notation "m ;; k" := (bind m (fun _ => k))
  (at level 61, right associativity).

Definition get {A : Type} (f : world -> A) : M A := fun w => Ret (f w) w.
Definition modify (f : world -> world) : M unit := fun w => Ret tt (f w).

(** [exit(status)] *)
Definition exit {A : Type} (status : Z) : M A := fun w => Exit status w.

(** [p->member]: a read through a pointer, a fault when it is [NULL]. *)
Definition rd (p : raw_ptr) (member : snd_seq_event_t -> Z) : M Z :=
  fun w =>
    match p with
    | Some ev => Ret (member ev) w
    | None => Fault w
    end.

(** [puts(s)], and a [printf] whose format ends in its only newline:
    both add one line to the output. *)
Definition puts (s : string) : M unit :=
  modify (fun w => set_stdout (stdout w ++ [s]) w).
Definition printf (line : string) : M unit :=
  modify (fun w => set_stdout (stdout w ++ [line]) w).

(** A call into alsa-lib: the driver answers from the history, and the
    call is appended to it. *)
Definition driver_answer {A : Type} (c : driver_call)
    (f : driver -> list driver_call -> A) : M A :=
  fun w => Ret (f (drv w) (history w)) (set_history (history w ++ [c]) w).

(** ** Assignments to the members of the static [event] *)
Definition assign_type (v : Z) : M unit := modify (fun w =>
  let e := event w in
  set_event (mk_ALSAEvent (u8 v) (tick_time e) (time_sec e) (time_nano e) (note e)
    (velocity e) (off_velocity e) (duration e) (param e) (value e) (channel e)) w).
Definition assign_tick_time (v : Z) : M unit := modify (fun w =>
  let e := event w in
  set_event (mk_ALSAEvent (type e) (u32 v) (time_sec e) (time_nano e) (note e)
    (velocity e) (off_velocity e) (duration e) (param e) (value e) (channel e)) w).
Definition assign_time_sec (v : Z) : M unit := modify (fun w =>
  let e := event w in
  set_event (mk_ALSAEvent (type e) (tick_time e) (u32 v) (time_nano e) (note e)
    (velocity e) (off_velocity e) (duration e) (param e) (value e) (channel e)) w).
Definition assign_time_nano (v : Z) : M unit := modify (fun w =>
  let e := event w in
  set_event (mk_ALSAEvent (type e) (tick_time e) (time_sec e) (u32 v) (note e)
    (velocity e) (off_velocity e) (duration e) (param e) (value e) (channel e)) w).
Definition assign_note (v : Z) : M unit := modify (fun w =>
  let e := event w in
  set_event (mk_ALSAEvent (type e) (tick_time e) (time_sec e) (time_nano e) (u8 v)
    (velocity e) (off_velocity e) (duration e) (param e) (value e) (channel e)) w).
Definition assign_velocity (v : Z) : M unit := modify (fun w =>
  let e := event w in
  set_event (mk_ALSAEvent (type e) (tick_time e) (time_sec e) (time_nano e) (note e)
    (u8 v) (off_velocity e) (duration e) (param e) (value e) (channel e)) w).
Definition assign_off_velocity (v : Z) : M unit := modify (fun w =>
  let e := event w in
  set_event (mk_ALSAEvent (type e) (tick_time e) (time_sec e) (time_nano e) (note e)
    (velocity e) (u8 v) (duration e) (param e) (value e) (channel e)) w).
Definition assign_duration (v : Z) : M unit := modify (fun w =>
  let e := event w in
  set_event (mk_ALSAEvent (type e) (tick_time e) (time_sec e) (time_nano e) (note e)
    (velocity e) (off_velocity e) (u32 v) (param e) (value e) (channel e)) w).
Definition assign_param (v : Z) : M unit := modify (fun w =>
  let e := event w in
  set_event (mk_ALSAEvent (type e) (tick_time e) (time_sec e) (time_nano e) (note e)
    (velocity e) (off_velocity e) (duration e) (u32 v) (value e) (channel e)) w).
Definition assign_value (v : Z) : M unit := modify (fun w =>
  let e := event w in
  set_event (mk_ALSAEvent (type e) (tick_time e) (time_sec e) (time_nano e) (note e)
    (velocity e) (off_velocity e) (duration e) (param e) (s32 v) (channel e)) w).
Definition assign_channel (v : Z) : M unit := modify (fun w =>
  let e := event w in
  set_event (mk_ALSAEvent (type e) (tick_time e) (time_sec e) (time_nano e) (note e)
    (velocity e) (off_velocity e) (duration e) (param e) (value e) (u8 v)) w).

(** ** The functions of [midi_alsa.c] *)

(** The operator [#] applied to a macro argument that is a string
    literal keeps the quotes of the literal. *)
Definition stringify (literal : string) : string := dq ++ literal ++ dq.

(** [#define CHK(stmt, msg) if ((stmt) < 0) {puts("ERROR: "#msg); exit(1);}] *)
Definition CHK (stmt : M Z) (msg : string) : M unit :=
  r <- stmt ;;
  if r <? 0 then puts ("ERROR: " ++ stringify msg) ;; exit 1 else ret tt.

Definition midi_open : M unit :=
  CHK (a <- driver_answer call_snd_seq_open snd_seq_open ;;
       match snd a with
       | Some h => modify (set_seq_handle h)
       | None => ret tt
       end ;;
       ret (fst a))
      "Could not open sequencer!" ;;
  CHK (driver_answer call_snd_seq_set_client_name snd_seq_set_client_name)
      "Could not set client name!" ;;
  CHK (p <- driver_answer call_snd_seq_create_simple_port
              snd_seq_create_simple_port ;;
       modify (set_in_port p) ;;
       ret p)
      "Could not open port!".

Definition midi_read_raw : M raw_ptr :=
  let ev := NULL in
  a <- driver_answer call_snd_seq_event_input snd_seq_event_input ;;
  let ev := match snd a with Some stored => stored | None => ev end in
  ret ev.

Definition create_pack (ev : raw_ptr) : M unit :=
  v <- rd ev ev_type ;; assign_type v ;;
  t <- get (fun w => type (event w)) ;;
  printf ("Internal event type " ++ fmt_d t) ;;
  v <- rd ev ev_time_tick ;; assign_tick_time v ;;
  v <- rd ev ev_time_time_tv_sec ;; assign_time_sec v ;;
  v <- rd ev ev_time_time_tv_nsec ;; assign_time_nano v ;;
  v <- rd ev ev_data_note_note ;; assign_note v ;;
  v <- rd ev ev_data_note_velocity ;; assign_velocity v ;;
  v <- rd ev ev_data_note_off_velocity ;; assign_off_velocity v ;;
  v <- rd ev ev_data_note_duration ;; assign_duration v ;;
  v <- rd ev ev_data_control_param ;; assign_param v ;;
  v <- rd ev ev_data_control_value ;; assign_value v ;;
  v <- rd ev ev_data_note_channel ;; assign_channel v ;;
  a <- get event_addr ;;
  printf ("New event location " ++ fmt_p a).

(** The second operand of [||] is a read without effect on a pointer
    the first operand has already read through, so evaluating it in
    every case changes nothing. *)
Definition midi_process (ev : raw_ptr) : M unit :=
  t <- rd ev ev_type ;;
  printf ("Event type: " ++ fmt_d t) ;;
  t1 <- rd ev ev_type ;;
  t2 <- rd ev ev_type ;;
  if (t1 =? SND_SEQ_EVENT_NOTEON) || (t2 =? SND_SEQ_EVENT_NOTEOFF) then
    t3 <- rd ev ev_type ;;
    let type := if t3 =? SND_SEQ_EVENT_NOTEON then "on " else "off" in
    tick <- rd ev ev_time_tick ;;
    n <- rd ev ev_data_note_note ;;
    v <- rd ev ev_data_note_velocity ;;
    printf ("[" ++ fmt_d (s32 tick) ++ "] Note " ++ type ++ ": "
                ++ fmt_2x n ++ " vel(" ++ fmt_2x v ++ ")")
  else
    t4 <- rd ev ev_type ;;
    if t4 =? SND_SEQ_EVENT_CONTROLLER then
      tick <- rd ev ev_time_tick ;;
      p <- rd ev ev_data_control_param ;;
      v <- rd ev ev_data_control_value ;;
      printf ("[" ++ fmt_d (s32 tick) ++ "] Control: "
                  ++ fmt_2x p ++ " val(" ++ fmt_2x v ++ ")")
    else
      tick <- rd ev ev_time_tick ;;
      printf ("[" ++ fmt_d (s32 tick) ++ "] Unknown: Unhandled Event Received").

(** Returns [&event]. *)
Definition midi_read : M Z :=
  thing <- midi_read_raw ;;
  midi_process thing ;;
  create_pack thing ;;
  printf "--== ALSA Event data: ==--" ;;
  t <- get (fun w => type (event w)) ;;
  printf ("Type: " ++ fmt_d t) ;;
  n <- get (fun w => note (event w)) ;;
  printf ("Note: " ++ fmt_d n) ;;
  get event_addr.

(** Reading an [ALSAEvent] through a pointer handed out by [midi_read]:
    the only such object is the static [event]. *)
Definition load (w : world) (p : Z) : option ALSAEvent :=
  if p =? event_addr w then Some (event w) else None.

(** ** The process and its caller

    The translation unit exports [midi_open] and [midi_read]; the caller
    invokes them in any order.  Once the process has exited or faulted
    no further call runs. *)
Inductive api : Type := call_midi_open | call_midi_read.

Inductive process : Type :=
| Running (w : world)
| Exited (status : Z) (w : world)
| Faulted (w : world).

Definition settle {A : Type} (o : outcome A) : process :=
  match o with
  | Ret _ w => Running w
  | Exit status w => Exited status w
  | Fault w => Faulted w
  end.

Definition invoke (p : process) (c : api) : process :=
  match p with
  | Running w =>
      match c with
      | call_midi_open => settle (midi_open w)
      | call_midi_read => settle (midi_read w)
      end
  | _ => p
  end.

Definition run (calls : list api) (p : process) : process :=
  fold_left invoke calls p.

Definition world_of (p : process) : world :=
  match p with
  | Running w | Exited _ w | Faulted w => w
  end.

(** The addresses returned by [n] consecutive calls of [midi_read], up
    to the first one that does not return. *)
Fixpoint read_addresses (n : nat) (w : world) : list Z :=
  match n with
  | O => []
  | S n' =>
      match midi_read w with
      | Ret p w' => p :: read_addresses n' w'
      | _ => []
      end
  end.

(** ** Sample events and drivers *)

(** A raw event whose [data] union was filled through its [note] member. *)
Definition raw_note_event (ty tick chan n vel off dur : Z) : snd_seq_event_t :=
  mk_raw ty 0 0 0 tick
    (Z.lor chan (Z.lor (Z.shiftl n 8) (Z.lor (Z.shiftl vel 16)
       (Z.lor (Z.shiftl off 24) (Z.shiftl dur 32))))).

(** A raw event whose [data] union was filled through its [control] member. *)
Definition raw_control_event (ty tick chan p v : Z) : snd_seq_event_t :=
  mk_raw ty 0 0 0 tick
    (Z.lor chan (Z.lor (Z.shiftl p 32) (Z.shiftl (u32 v) 64))).

(** A driver whose session opens and which then delivers the events of
    [evs] in order, and nothing ([NULL], a negative code) after them. *)
Definition count_inputs (h : list driver_call) : nat :=
  List.length (filter (fun c => match c with
                                | call_snd_seq_event_input => true
                                | _ => false
                                end) h).

Definition feeding_driver (evs : list snd_seq_event_t) : driver :=
  {| snd_seq_open := fun _ => (0, Some 4096);
     snd_seq_set_client_name := fun _ => 0;
     snd_seq_create_simple_port := fun _ => 0;
     snd_seq_event_input := fun h =>
       match nth_error evs (count_inputs h) with
       | Some ev => (1, Some (Some ev))
       | None => (-11, Some NULL)
       end |}.

(** A driver whose three session calls return the given codes, and
    whose reads fail without storing a pointer. *)
Definition session_driver (r_open r_name r_port : Z) : driver :=
  {| snd_seq_open := fun _ => (r_open, if r_open <? 0 then None else Some 4096);
     snd_seq_set_client_name := fun _ => r_name;
     snd_seq_create_simple_port := fun _ => r_port;
     snd_seq_event_input := fun _ => (-11, None) |}.

Definition ev_note_on : snd_seq_event_t :=
  raw_note_event SND_SEQ_EVENT_NOTEON 100 0 64 127 0 0.
Definition ev_note_off : snd_seq_event_t :=
  raw_note_event SND_SEQ_EVENT_NOTEOFF 130 0 64 0 0 0.
Definition ev_control : snd_seq_event_t :=
  raw_control_event SND_SEQ_EVENT_CONTROLLER 50 0 7 100.
(** Program change (code 11) and channel pressure (code 12): two event
    types [midi_alsa.c] does not name. *)
Definition ev_pgmchange : snd_seq_event_t := raw_control_event 11 7 0 0 5.
Definition ev_chanpress : snd_seq_event_t := raw_control_event 12 7 0 0 5.

(** A process loaded with [event] at 0x601060, whose driver delivers the
    controller event and then the note-on event. *)
Definition sample_world : world :=
  initial_world (feeding_driver [ev_control; ev_note_on]) 6295648.

(** Processes whose session fails at the first, second, third step. *)
Definition no_sequencer_world : world :=
  initial_world (session_driver (-2) 0 0) 6295648.
Definition no_client_name_world : world :=
  initial_world (session_driver 0 (-16) 0) 6295648.
Definition no_port_world : world :=
  initial_world (session_driver 0 0 (-12)) 6295648.

(** A driver that stores [NULL] on every read, and one that delivers an
    event together with a negative return code. *)
Definition silent_world : world :=
  initial_world (feeding_driver []) 6295648.

Definition odd_driver : driver :=
  {| snd_seq_open := fun _ => (0, Some 4096);
     snd_seq_set_client_name := fun _ => 0;
     snd_seq_create_simple_port := fun _ => 0;
     snd_seq_event_input := fun _ => (-28, Some (Some ev_note_on)) |}.



(** Text search in an output line. *)
Definition contains (line text : string) : Prop :=
  exists before after, line = before ++ text ++ after.

Fixpoint starts_with (text line : string) : bool :=
  match text with
  | EmptyString => true
  | String c text' =>
      match line with
      | EmptyString => false
      | String c' line' => Ascii.eqb c c' && starts_with text' line'
      end
  end.

Fixpoint containsb (line text : string) : bool :=
  starts_with text line ||
  match line with
  | EmptyString => false
  | String _ rest => containsb rest text
  end.

(** Position of the first line equal to [l]. *)
Fixpoint first_index (l : string) (out : list string) : option nat :=
  match out with
  | [] => None
  | x :: out' =>
      if String.eqb x l then Some O
      else option_map S (first_index l out')
  end.

(** [a] is written before [b]: both occur, [a] first. *)
Definition written_before (a b : string) (out : list string) : Prop :=
  exists i j, first_index a out = Some i /\ first_index b out = Some j /\ (i < j)%nat.

(** The world after [lines] have been written. *)
Definition emit (lines : list string) (w : world) : world :=
  set_stdout (stdout w ++ lines) w.

(** The world after one more call of [snd_seq_event_input]. *)
Definition polled (w : world) : world :=
  set_history (history w ++ [call_snd_seq_event_input]) w.

(** The pointer the next call of [midi_read_raw] returns: the one the
    driver stores, [NULL] when it stores none. *)
Definition next_input (w : world) : raw_ptr :=
  match snd (snd_seq_event_input (drv w) (history w)) with
  | Some stored => stored
  | None => NULL
  end.

(** The two lines [midi_process] writes for an event, as a function of
    the raw event alone. *)
Definition report_line (ev : snd_seq_event_t) : string :=
  let tick := fmt_d (s32 (ev_time_tick ev)) in
  if ev_type ev =? SND_SEQ_EVENT_NOTEON then
    "[" ++ tick ++ "] Note on : " ++ fmt_2x (ev_data_note_note ev)
        ++ " vel(" ++ fmt_2x (ev_data_note_velocity ev) ++ ")"
  else if ev_type ev =? SND_SEQ_EVENT_NOTEOFF then
    "[" ++ tick ++ "] Note off: " ++ fmt_2x (ev_data_note_note ev)
        ++ " vel(" ++ fmt_2x (ev_data_note_velocity ev) ++ ")"
  else if ev_type ev =? SND_SEQ_EVENT_CONTROLLER then
    "[" ++ tick ++ "] Control: " ++ fmt_2x (ev_data_control_param ev)
        ++ " val(" ++ fmt_2x (ev_data_control_value ev) ++ ")"
  else
    "[" ++ tick ++ "] Unknown: Unhandled Event Received".

Definition process_lines (ev : snd_seq_event_t) : list string :=
  ["Event type: " ++ fmt_d (ev_type ev); report_line ev].

(** The two lines [create_pack] writes. *)
Definition pack_lines (ev : snd_seq_event_t) (addr : Z) : list string :=
  ["Internal event type " ++ fmt_d (ev_type ev);
   "New event location " ++ fmt_p addr].

(** The three lines [midi_read] writes itself. *)
Definition dump_lines (e : ALSAEvent) : list string :=
  ["--== ALSA Event data: ==--";
   "Type: " ++ fmt_d (type e);
   "Note: " ++ fmt_d (note e)].

(** The worlds [midi_open] goes through and the codes its three driver
    calls return, as the driver of [w] decides them. *)
Definition open_code (w : world) : Z :=
  fst (snd_seq_open (drv w) (history w)).

Definition opened (w : world) : world :=
  let w1 := set_history (history w ++ [call_snd_seq_open]) w in
  match snd (snd_seq_open (drv w) (history w)) with
  | Some h => set_seq_handle h w1
  | None => w1
  end.

Definition name_code (w : world) : Z :=
  snd_seq_set_client_name (drv w) (history w ++ [call_snd_seq_open]).

Definition named (w : world) : world :=
  set_history
    (history w ++ [call_snd_seq_open; call_snd_seq_set_client_name])
    (opened w).

Definition port_code (w : world) : Z :=
  snd_seq_create_simple_port (drv w)
    (history w ++ [call_snd_seq_open; call_snd_seq_set_client_name]).

Definition ported (w : world) : world :=
  set_in_port (port_code w)
    (set_history
       (history w ++ [call_snd_seq_open; call_snd_seq_set_client_name;
                      call_snd_seq_create_simple_port])
       (opened w)).

(** ** Vocabulary for whole sessions *)

(** The pointer a driver stores for a read made after the calls [h]. *)
Definition stored_by (d : driver) (h : list driver_call) : raw_ptr :=
  match snd (snd_seq_event_input d h) with
  | Some stored => stored
  | None => NULL
  end.

(** From the history [h] on, the driver delivers the events [evs], in
    this order, to consecutive reads. *)
Fixpoint delivers (d : driver) (h : list driver_call)
    (evs : list snd_seq_event_t) : Prop :=
  match evs with
  | [] => True
  | ev :: evs' =>
      stored_by d h = Some ev /\
      delivers d (h ++ [call_snd_seq_event_input]) evs'
  end.

(** A driver that never fails: every session call succeeds and every
    read delivers an event. *)
Definition dependable (d : driver) : Prop :=
  forall h : list driver_call,
    0 <= fst (snd_seq_open d h) /\
    0 <= snd_seq_set_client_name d h /\
    0 <= snd_seq_create_simple_port d h /\
    exists ev, stored_by d h = Some ev.

(** The seven lines of one read cycle. *)
Definition cycle_lines (addr : Z) (ev : snd_seq_event_t) : list string :=
  process_lines ev ++ pack_lines ev addr ++ dump_lines (pack ev).

(** [n] calls of [midi_read]. *)
Definition reads (n : nat) : list api := repeat call_midi_read n.

Definition count_reads (calls : list api) : nat :=
  List.length (filter (fun c => match c with
                                | call_midi_read => true
                                | call_midi_open => false
                                end) calls).

(** The eight bytes of a [time] union and the twelve bytes of a [data]
    union, put together again from the members of a normalised event. *)
Definition time_bytes_of (e : ALSAEvent) : Z :=
  tick_time e + 2 ^ 32 * time_nano e.

Definition data_bytes_of (e : ALSAEvent) : Z :=
  channel e + 2 ^ 8 * note e + 2 ^ 16 * velocity e
  + 2 ^ 24 * off_velocity e + 2 ^ 32 * duration e
  + 2 ^ 64 * u32 (value e).

(** A driver that delivers the note-on event to every read. *)
Definition steady_driver : driver :=
  {| snd_seq_open := fun _ => (0, Some 4096);
     snd_seq_set_client_name := fun _ => 0;
     snd_seq_create_simple_port := fun _ => 3;
     snd_seq_event_input := fun _ => (1, Some (Some ev_note_on)) |}.

Definition steady_world : world := initial_world steady_driver 6295648.

(** A note-on event whose tick has its top bit set. *)
Definition ev_late_note_on : snd_seq_event_t :=
  raw_note_event SND_SEQ_EVENT_NOTEON 4294967295 0 64 127 0 0.

Definition late_world : world :=
  initial_world (feeding_driver [ev_late_note_on]) 6295648.

(** * Properties *)

(** ** Integer conversions *)

Lemma u8_mod (z : Z) : u8 z = z mod 2 ^ 8.
Proof. unfold u8. change 255 with (Z.ones 8). apply Z.land_ones. lia. Qed.

Lemma u32_mod (z : Z) : u32 z = z mod 2 ^ 32.
Proof. unfold u32. change 4294967295 with (Z.ones 32). apply Z.land_ones. lia. Qed.

Lemma u8_range (z : Z) : 0 <= u8 z < 256.
Proof. rewrite u8_mod. apply Z.mod_pos_bound. lia. Qed.

Lemma u32_range (z : Z) : 0 <= u32 z < 4294967296.
Proof. rewrite u32_mod. apply Z.mod_pos_bound. lia. Qed.

Lemma u8_small (z : Z) : 0 <= z < 256 -> u8 z = z.
Proof. intros H. rewrite u8_mod. apply Z.mod_small. lia. Qed.

Lemma u32_small (z : Z) : 0 <= z < 4294967296 -> u32 z = z.
Proof. intros H. rewrite u32_mod. apply Z.mod_small. lia. Qed.

Lemma testbit_31 (z : Z) :
  Z.testbit z 31 = (2147483648 <=? z mod 4294967296).
Proof.
  rewrite <- (Z.mod_pow2_bits_low z 32 31) by lia.
  change (2 ^ 32) with 4294967296.
  pose proof (Z.mod_pos_bound z 4294967296 ltac:(lia)) as Hb.
  set (y := z mod 4294967296) in *.
  pose proof (Z.testbit_spec' y 31 ltac:(lia)) as H.
  change (2 ^ 31) with 2147483648 in H.
  destruct (Z.testbit y 31); cbn [Z.b2z] in H; symmetry;
    [apply Z.leb_le | apply Z.leb_gt];
    Z.to_euclidean_division_equations; lia.
Qed.

Lemma s32_range (z : Z) : -2147483648 <= s32 z < 2147483648.
Proof.
  unfold s32. rewrite testbit_31, u32_mod. change (2 ^ 32) with 4294967296.
  pose proof (Z.mod_pos_bound z 4294967296 ltac:(lia)).
  destruct (Z.leb_spec 2147483648 (z mod 4294967296)); lia.
Qed.

Lemma s32_small (z : Z) : -2147483648 <= z < 2147483648 -> s32 z = z.
Proof.
  intros H. unfold s32. rewrite testbit_31, u32_mod.
  change (2 ^ 32) with 4294967296.
  destruct (Z.leb_spec 2147483648 (z mod 4294967296)) as [Hz | Hz];
    Z.to_euclidean_division_equations; lia.
Qed.

Lemma s32_idem (z : Z) : s32 (s32 z) = s32 z.
Proof. apply s32_small, s32_range. Qed.

Lemma bytes_at_range (obj off w : Z) :
  0 <= w -> 0 <= bytes_at obj off w < 2 ^ (8 * w).
Proof.
  intros Hw. unfold bytes_at. rewrite Z.land_ones by lia.
  apply Z.mod_pos_bound. apply Z.pow_pos_nonneg; lia.
Qed.

Lemma u8_byte (obj off : Z) : u8 (bytes_at obj off 1) = bytes_at obj off 1.
Proof. apply u8_small. apply (bytes_at_range obj off 1). lia. Qed.

Lemma u32_word (obj off : Z) : u32 (bytes_at obj off 4) = bytes_at obj off 4.
Proof. apply u32_small. apply (bytes_at_range obj off 4). lia. Qed.

Lemma u8_idem (z : Z) : u8 (u8 z) = u8 z.
Proof. apply u8_small, u8_range. Qed.

Lemma u8_ev_type (ev : snd_seq_event_t) : u8 (ev_type ev) = ev_type ev.
Proof. apply u8_idem. Qed.

(** ** Running the monad *)

Lemma bind_Ret {A B : Type} (m : M A) (k : A -> M B) (w w' : world) (a : A) :
  m w = Ret a w' -> bind m k w = k a w'.
Proof. intros H. unfold bind. rewrite H. reflexivity. Qed.

Lemma bind_Exit {A B : Type} (m : M A) (k : A -> M B) (w w' : world) (c : Z) :
  m w = Exit c w' -> bind m k w = Exit c w'.
Proof. intros H. unfold bind. rewrite H. reflexivity. Qed.

Lemma bind_Fault {A B : Type} (m : M A) (k : A -> M B) (w w' : world) :
  m w = Fault w' -> bind m k w = Fault w'.
Proof. intros H. unfold bind. rewrite H. reflexivity. Qed.

Lemma emit_emit (l1 l2 : list string) (w : world) :
  emit l2 (emit l1 w) = emit (l1 ++ l2) w.
Proof. unfold emit, set_stdout. cbn. rewrite app_assoc. reflexivity. Qed.

Lemma printf_emit (line : string) (w : world) :
  printf line w = Ret tt (emit [line] w).
Proof. reflexivity. Qed.

(** ** The three functions on a delivered event and on [NULL] *)

Lemma midi_read_raw_eq (w : world) :
  midi_read_raw w = Ret (next_input w) (polled w).
Proof. reflexivity. Qed.

Lemma create_pack_Some (ev : snd_seq_event_t) (w : world) :
  create_pack (Some ev) w =
  Ret tt (emit (pack_lines ev (event_addr w)) (set_event (pack ev) w)).
Proof.
  destruct w as [h e p a o d hi].
  cbv [create_pack bind rd get modify printf assign_type assign_tick_time
       assign_time_sec assign_time_nano assign_note assign_velocity
       assign_off_velocity assign_duration assign_param assign_value
       assign_channel set_event set_stdout emit pack pack_lines
       seq_handle event in_port event_addr stdout drv history
       type tick_time time_sec time_nano note velocity off_velocity
       duration param value channel].
  rewrite <- app_assoc. cbn [app]. rewrite u8_ev_type. reflexivity.
Qed.

Lemma create_pack_NULL (w : world) : create_pack NULL w = Fault w.
Proof. reflexivity. Qed.

Lemma midi_process_Some (ev : snd_seq_event_t) (w : world) :
  midi_process (Some ev) w = Ret tt (emit (process_lines ev) w).
Proof.
  destruct w as [h e p a o d hi].
  cbv [midi_process bind rd printf modify set_stdout emit process_lines
       report_line seq_handle event in_port event_addr stdout drv history].
  destruct (ev_type ev =? SND_SEQ_EVENT_NOTEON) eqn:Hon; cbn [orb].
  - rewrite <- app_assoc. reflexivity.
  - destruct (ev_type ev =? SND_SEQ_EVENT_NOTEOFF) eqn:Hoff.
    + rewrite <- app_assoc. reflexivity.
    + destruct (ev_type ev =? SND_SEQ_EVENT_CONTROLLER);
        rewrite <- app_assoc; reflexivity.
Qed.

Lemma midi_process_NULL (w : world) : midi_process NULL w = Fault w.
Proof. reflexivity. Qed.

Lemma midi_read_Some (ev : snd_seq_event_t) (w : world) :
  next_input w = Some ev ->
  midi_read w =
  Ret (event_addr w)
      (emit (process_lines ev ++ pack_lines ev (event_addr w)
               ++ dump_lines (pack ev))
            (set_event (pack ev) (polled w))).
Proof.
  intros Hin. unfold midi_read.
  rewrite (bind_Ret _ _ _ _ _ (midi_read_raw_eq w)). rewrite Hin.
  rewrite (bind_Ret _ _ _ _ _ (midi_process_Some ev (polled w))).
  rewrite (bind_Ret _ _ _ _ _ (create_pack_Some ev _)).
  destruct w as [h e p a o d hi].
  cbv [bind get printf modify emit set_stdout set_event polled set_history
       dump_lines process_lines pack_lines
       seq_handle event in_port event_addr stdout drv history].
  repeat rewrite <- app_assoc. reflexivity.
Qed.

Lemma midi_read_NULL (w : world) :
  next_input w = NULL -> midi_read w = Fault (polled w).
Proof.
  intros Hin. unfold midi_read.
  rewrite (bind_Ret _ _ _ _ _ (midi_read_raw_eq w)). rewrite Hin.
  reflexivity.
Qed.

(** ** Normalisation: what [create_pack] leaves in the slot *)

(** The conversions of the eleven assignments never change a value:
    every member is assigned from a member of the same C type. *)
Lemma pack_fields (ev : snd_seq_event_t) :
  pack ev =
  mk_ALSAEvent (ev_type ev) (ev_time_tick ev) (ev_time_time_tv_sec ev)
    (ev_time_time_tv_nsec ev) (ev_data_note_note ev) (ev_data_note_velocity ev)
    (ev_data_note_off_velocity ev) (ev_data_note_duration ev)
    (ev_data_control_param ev) (ev_data_control_value ev)
    (ev_data_note_channel ev).
Proof.
  unfold pack. rewrite u8_ev_type.
  unfold ev_time_tick, ev_time_time_tv_sec, ev_time_time_tv_nsec,
    ev_data_note_note, ev_data_note_velocity, ev_data_note_off_velocity,
    ev_data_note_duration, ev_data_control_param, ev_data_control_value,
    ev_data_note_channel.
  rewrite !u8_byte, !u32_word, s32_idem. reflexivity.
Qed.

Lemma create_pack_slot (ev : snd_seq_event_t) (w : world) :
  exists w', create_pack (Some ev) w = Ret tt w' /\ event w' = pack ev.
Proof.
  eexists. split; [apply create_pack_Some |]. reflexivity.
Qed.

(** C1. For a raw event whose type is note-on or note-off, [create_pack]
    returns with [note], [velocity] and [channel] of the slot equal to
    the members of the raw event's [data.note]; for a raw event whose
    type is controller, it returns with [param] and [value] equal to the
    members of the raw event's [data.control]. *)
Theorem create_pack_note_and_controller_payload
    (ev : snd_seq_event_t) (w : world) :
  exists w',
    create_pack (Some ev) w = Ret tt w' /\
    (ev_type ev = SND_SEQ_EVENT_NOTEON \/ ev_type ev = SND_SEQ_EVENT_NOTEOFF ->
     note (event w') = ev_data_note_note ev /\
     velocity (event w') = ev_data_note_velocity ev /\
     channel (event w') = ev_data_note_channel ev) /\
    (ev_type ev = SND_SEQ_EVENT_CONTROLLER ->
     param (event w') = ev_data_control_param ev /\
     value (event w') = ev_data_control_value ev).
Proof.
  destruct (create_pack_slot ev w) as (w' & Hrun & Hslot).
  exists w'. rewrite Hslot, pack_fields.
  cbn [note velocity channel param value].
  repeat split; assumption || reflexivity.
Qed.

Lemma create_pack_note_and_controller_payload_witness :
  (ev_type ev_note_off = SND_SEQ_EVENT_NOTEOFF /\
   exists w', create_pack (Some ev_note_off) sample_world = Ret tt w' /\
     note (event w') = ev_data_note_note ev_note_off /\
     velocity (event w') = ev_data_note_velocity ev_note_off /\
     channel (event w') = ev_data_note_channel ev_note_off) /\
  (ev_type ev_control = SND_SEQ_EVENT_CONTROLLER /\
   exists w', create_pack (Some ev_control) sample_world = Ret tt w' /\
     param (event w') = ev_data_control_param ev_control /\
     value (event w') = ev_data_control_value ev_control).
Proof.
  split; (split; [reflexivity |]).
  - destruct (create_pack_note_and_controller_payload ev_note_off sample_world)
      as (w' & Hrun & Hnote & _).
    exists w'. split; [exact Hrun |]. apply Hnote. right. reflexivity.
  - destruct (create_pack_note_and_controller_payload ev_control sample_world)
      as (w' & Hrun & _ & Hctl).
    exists w'. split; [exact Hrun |]. apply Hctl. reflexivity.
Defined.

(** C2. For every raw event, whatever its type, [create_pack] returns
    with [tick_time] equal to the raw tick counter and [time_sec],
    [time_nano] equal to the raw wall-clock seconds and nanoseconds. *)
Theorem create_pack_copies_time_fields (ev : snd_seq_event_t) (w : world) :
  exists w',
    create_pack (Some ev) w = Ret tt w' /\
    tick_time (event w') = ev_time_tick ev /\
    time_sec (event w') = ev_time_time_tv_sec ev /\
    time_nano (event w') = ev_time_time_tv_nsec ev.
Proof.
  destruct (create_pack_slot ev w) as (w' & Hrun & Hslot).
  exists w'. rewrite Hslot, pack_fields.
  cbn [tick_time time_sec time_nano]. auto.
Qed.

(** C3. For every raw event, whatever its type, [create_pack] returns
    with the five note members and the two controller members of the
    slot equal to the raw event's [data.note] and [data.control]
    members. *)
Theorem create_pack_copies_payload_unconditionally
    (ev : snd_seq_event_t) (w : world) :
  exists w',
    create_pack (Some ev) w = Ret tt w' /\
    note (event w') = ev_data_note_note ev /\
    velocity (event w') = ev_data_note_velocity ev /\
    off_velocity (event w') = ev_data_note_off_velocity ev /\
    duration (event w') = ev_data_note_duration ev /\
    channel (event w') = ev_data_note_channel ev /\
    param (event w') = ev_data_control_param ev /\
    value (event w') = ev_data_control_value ev.
Proof.
  destruct (create_pack_slot ev w) as (w' & Hrun & Hslot).
  exists w'. rewrite Hslot, pack_fields.
  cbn [note velocity off_velocity duration channel param value].
  repeat split; auto.
Qed.

(** The copy does not look at the type: an event of a type the file
    does not name gets the same payload members as any other. *)
Example create_pack_pgmchange_payload :
  exists w',
    create_pack (Some ev_pgmchange) sample_world = Ret tt w' /\
    type (event w') = 11 /\ note (event w') = 0 /\
    param (event w') = 0 /\ value (event w') = 5.
Proof.
  eexists. split; [apply create_pack_Some |].
  vm_compute. repeat split.
Qed.

(** ** The type discriminant *)

Lemma report_line_unknown (ev : snd_seq_event_t) :
  ev_type ev <> SND_SEQ_EVENT_NOTEON ->
  ev_type ev <> SND_SEQ_EVENT_NOTEOFF ->
  ev_type ev <> SND_SEQ_EVENT_CONTROLLER ->
  report_line ev =
  "[" ++ fmt_d (s32 (ev_time_tick ev)) ++ "] Unknown: Unhandled Event Received".
Proof.
  intros Hon Hoff Hctl. unfold report_line.
  apply Z.eqb_neq in Hon, Hoff, Hctl. rewrite Hon, Hoff, Hctl. reflexivity.
Qed.

(** C4, as the specification has it, fails: there is no single Unknown
    value that [create_pack] stores for every raw type other than
    note-on, note-off and controller.  Program change (11) and channel
    pressure (12) are stored as 11 and 12. *)
Lemma create_pack_has_no_unknown_kind :
  ~ (exists unknown : Z,
       forall (ev : snd_seq_event_t) (w : world),
         ev_type ev <> SND_SEQ_EVENT_NOTEON ->
         ev_type ev <> SND_SEQ_EVENT_NOTEOFF ->
         ev_type ev <> SND_SEQ_EVENT_CONTROLLER ->
         exists w',
           create_pack (Some ev) w = Ret tt w' /\ type (event w') = unknown).
Proof.
  intros (unknown & H).
  destruct (H ev_pgmchange sample_world) as (w1 & Hrun1 & Hty1);
    [discriminate | discriminate | discriminate |].
  destruct (H ev_chanpress sample_world) as (w2 & Hrun2 & Hty2);
    [discriminate | discriminate | discriminate |].
  rewrite create_pack_Some in Hrun1, Hrun2.
  injection Hrun1 as <-. injection Hrun2 as <-.
  vm_compute in Hty1, Hty2. congruence.
Qed.

(** C4, amended.  For a raw event whose type is none of note-on,
    note-off and controller, [create_pack] returns, and the [type] of
    the slot is the raw type code, unchanged; it is [midi_process] that
    treats all these codes alike, by writing the Unknown line. *)
Theorem create_pack_passes_raw_type_through
    (ev : snd_seq_event_t) (w : world) :
  ev_type ev <> SND_SEQ_EVENT_NOTEON ->
  ev_type ev <> SND_SEQ_EVENT_NOTEOFF ->
  ev_type ev <> SND_SEQ_EVENT_CONTROLLER ->
  (exists w',
     create_pack (Some ev) w = Ret tt w' /\ type (event w') = ev_type ev) /\
  midi_process (Some ev) w =
  Ret tt (emit ["Event type: " ++ fmt_d (ev_type ev);
                "[" ++ fmt_d (s32 (ev_time_tick ev))
                    ++ "] Unknown: Unhandled Event Received"] w).
Proof.
  intros Hon Hoff Hctl. split.
  - destruct (create_pack_slot ev w) as (w' & Hrun & Hslot).
    exists w'. split; [exact Hrun |].
    rewrite Hslot, pack_fields. reflexivity.
  - rewrite midi_process_Some. unfold process_lines.
    rewrite report_line_unknown by assumption. reflexivity.
Qed.

Lemma create_pack_passes_raw_type_through_witness :
  (exists w',
     create_pack (Some ev_pgmchange) sample_world = Ret tt w' /\
     type (event w') = 11) /\
  midi_process (Some ev_pgmchange) sample_world =
  Ret tt (emit ["Event type: 11";
                "[7] Unknown: Unhandled Event Received"] sample_world).
Proof.
  apply (create_pack_passes_raw_type_through ev_pgmchange sample_world);
    discriminate.
Defined.

(** ** The reporter *)

(** X11. The four cases of [midi_process], as it prints them.  The
    tick is written with [%d], that is read as a signed [int]: it is the
    tick itself below 2^31 and the tick minus 2^32 from there on.
    Note-on and note-off: a line with that number, the marker [on ] or
    [off], the note and the velocity.  Controller: a line with that
    number, the parameter and the value.  Any other type: the Unknown
    line, which carries that number and nothing of the payload, so that
    two such events with the same type and tick are reported alike. *)
Theorem midi_process_four_way_partition (ev : snd_seq_event_t) (w : world) :
  let header := "Event type: " ++ fmt_d (ev_type ev) in
  let tick := fmt_d (s32 (ev_time_tick ev)) in
  (ev_type ev = SND_SEQ_EVENT_NOTEON ->
   midi_process (Some ev) w =
   Ret tt (emit [header;
                 "[" ++ tick ++ "] Note on : "
                     ++ fmt_2x (ev_data_note_note ev)
                     ++ " vel(" ++ fmt_2x (ev_data_note_velocity ev) ++ ")"] w)) /\
  (ev_type ev = SND_SEQ_EVENT_NOTEOFF ->
   midi_process (Some ev) w =
   Ret tt (emit [header;
                 "[" ++ tick ++ "] Note off: "
                     ++ fmt_2x (ev_data_note_note ev)
                     ++ " vel(" ++ fmt_2x (ev_data_note_velocity ev) ++ ")"] w)) /\
  (ev_type ev = SND_SEQ_EVENT_CONTROLLER ->
   midi_process (Some ev) w =
   Ret tt (emit [header;
                 "[" ++ tick ++ "] Control: "
                     ++ fmt_2x (ev_data_control_param ev)
                     ++ " val(" ++ fmt_2x (ev_data_control_value ev) ++ ")"] w)) /\
  (ev_type ev <> SND_SEQ_EVENT_NOTEON ->
   ev_type ev <> SND_SEQ_EVENT_NOTEOFF ->
   ev_type ev <> SND_SEQ_EVENT_CONTROLLER ->
   midi_process (Some ev) w =
   Ret tt (emit [header;
                 "[" ++ tick ++ "] Unknown: Unhandled Event Received"] w) /\
   forall ev' : snd_seq_event_t,
     ev_type ev' = ev_type ev -> ev_time_tick ev' = ev_time_tick ev ->
     midi_process (Some ev') w = midi_process (Some ev) w).
Proof.
  cbv zeta. rewrite midi_process_Some. unfold process_lines.
  split; [| split; [| split]].
  - intros H. unfold report_line. rewrite H. reflexivity.
  - intros H. unfold report_line. rewrite H. reflexivity.
  - intros H. unfold report_line. rewrite H. reflexivity.
  - intros Hon Hoff Hctl. split.
    + rewrite report_line_unknown by assumption. reflexivity.
    + intros ev' Hty Htick. rewrite midi_process_Some. unfold process_lines.
      rewrite !report_line_unknown by congruence.
      rewrite Hty, Htick. reflexivity.
Qed.

Lemma midi_process_four_way_partition_witness :
  midi_process (Some ev_note_on) sample_world =
    Ret tt (emit ["Event type: 6"; "[100] Note on : 40 vel(7f)"] sample_world) /\
  midi_process (Some ev_note_off) sample_world =
    Ret tt (emit ["Event type: 7"; "[130] Note off: 40 vel( 0)"] sample_world) /\
  midi_process (Some ev_control) sample_world =
    Ret tt (emit ["Event type: 10"; "[50] Control:  7 val(64)"] sample_world) /\
  midi_process (Some ev_chanpress) sample_world =
    Ret tt (emit ["Event type: 12";
                  "[7] Unknown: Unhandled Event Received"] sample_world).
Proof.
  split; [| split; [| split]].
  - apply (proj1 (midi_process_four_way_partition ev_note_on sample_world)).
    reflexivity.
  - apply (proj1 (proj2
      (midi_process_four_way_partition ev_note_off sample_world))).
    reflexivity.
  - apply (proj1 (proj2 (proj2
      (midi_process_four_way_partition ev_control sample_world)))).
    reflexivity.
  - refine (proj1 (proj2 (proj2 (proj2
      (midi_process_four_way_partition ev_chanpress sample_world))) _ _ _));
      discriminate.
Defined.

(** ** Searching the output *)

Lemma starts_with_app (s t : string) :
  starts_with s t = true <-> exists rest, t = s ++ rest.
Proof.
  revert t. induction s as [| c s IH]; intros t; cbn.
  - split; [intros _; exists t; reflexivity | reflexivity].
  - destruct t as [| c' t].
    + split; [discriminate | intros (rest & H); discriminate].
    + rewrite andb_true_iff, Ascii.eqb_eq, IH.
      split.
      * intros (<- & rest & ->). exists rest. reflexivity.
      * intros (rest & H). injection H as <- ->. split; [reflexivity |].
        exists rest. reflexivity.
Qed.

Lemma containsb_spec (line text : string) :
  containsb line text = true <-> contains line text.
Proof.
  split.
  - induction line as [| c line IH]; cbn; intros H;
      apply orb_true_iff in H; destruct H as [H | H].
    + apply starts_with_app in H. destruct H as (rest & H).
      exists EmptyString, rest. exact H.
    + discriminate.
    + apply starts_with_app in H. destruct H as (rest & H).
      exists EmptyString, rest. exact H.
    + destruct (IH H) as (before & after & E).
      exists (String c before), after. rewrite E. reflexivity.
  - intros (before & after & E). revert line E.
    induction before as [| c before IH]; intros line E.
    + assert (Hp : starts_with text line = true).
      { apply starts_with_app. exists after. exact E. }
      destruct line; cbn; rewrite Hp; reflexivity.
    + subst line. cbn. rewrite (IH _ eq_refl). apply orb_true_r.
Qed.

(** ** Scenario 2: the controller event *)

(** C6, as the specification has it, fails.  After [midi_read] has read
    the controller event with tick 50, parameter 7 and value 100, the
    slot holds these three values, but no line of the output contains
    the text [[50] Control: 7 val(100)]. *)
Lemma scenario_2_text_is_not_written :
  ~ (exists (p : Z) (w' : world),
       midi_read sample_world = Ret p w' /\
       tick_time (event w') = 50 /\
       param (event w') = 7 /\
       value (event w') = 100 /\
       exists line : string,
         In line (stdout w') /\ contains line "[50] Control: 7 val(100)").
Proof.
  intros (p & w' & Hrun & _ & _ & _ & line & Hin & Hc).
  rewrite (midi_read_Some ev_control sample_world eq_refl) in Hrun.
  injection Hrun as _ <-.
  apply containsb_spec in Hc.
  vm_compute in Hin.
  repeat (destruct Hin as [<- | Hin]; [vm_compute in Hc; discriminate |]).
  exact Hin.
Qed.

(** C6, amended.  For a raw controller event with tick 50, parameter 7
    and value 100, [create_pack] leaves tick 50, parameter 7 and value
    100 in the slot, and the line [midi_process] writes for it is
    [[50] Control:  7 val(64)]: parameter and value are written in
    hexadecimal, right-aligned in two columns. *)
Theorem scenario_2_controller_event (ev : snd_seq_event_t) (w : world) :
  ev_type ev = SND_SEQ_EVENT_CONTROLLER ->
  ev_time_tick ev = 50 ->
  ev_data_control_param ev = 7 ->
  ev_data_control_value ev = 100 ->
  (exists w',
     create_pack (Some ev) w = Ret tt w' /\
     type (event w') = SND_SEQ_EVENT_CONTROLLER /\
     tick_time (event w') = 50 /\
     param (event w') = 7 /\
     value (event w') = 100) /\
  midi_process (Some ev) w =
  Ret tt (emit ["Event type: 10"; "[50] Control:  7 val(64)"] w).
Proof.
  intros Hty Htick Hparam Hvalue. split.
  - destruct (create_pack_slot ev w) as (w' & Hrun & Hslot).
    exists w'. rewrite Hslot, pack_fields.
    cbn [type tick_time param value]. auto.
  - rewrite midi_process_Some. unfold process_lines, report_line.
    rewrite Hty, Htick, Hparam, Hvalue. reflexivity.
Qed.

Lemma scenario_2_controller_event_witness :
  (exists w',
     create_pack (Some ev_control) sample_world = Ret tt w' /\
     type (event w') = SND_SEQ_EVENT_CONTROLLER /\
     tick_time (event w') = 50 /\
     param (event w') = 7 /\
     value (event w') = 100) /\
  midi_process (Some ev_control) sample_world =
  Ret tt (emit ["Event type: 10"; "[50] Control:  7 val(64)"] sample_world).
Proof.
  apply (scenario_2_controller_event ev_control sample_world); reflexivity.
Defined.

(** ** The tick of a late event *)

(** C5. The code departs from the claim at a late tick.  For the
    note-on event with tick 4294967295 the record [midi_process] writes
    is [[-1] Note on : 40 vel(7f)]: the tick is printed with [%d], and
    neither of the two lines written contains the tick time. *)
Theorem midi_process_late_tick_report (w : world) :
  ev_type ev_late_note_on = SND_SEQ_EVENT_NOTEON /\
  ev_time_tick ev_late_note_on = 4294967295 /\
  midi_process (Some ev_late_note_on) w =
    Ret tt (emit ["Event type: 6"; "[-1] Note on : 40 vel(7f)"] w) /\
  ~ contains "Event type: 6" "4294967295" /\
  ~ contains "[-1] Note on : 40 vel(7f)" "4294967295".
Proof.
  split; [reflexivity |]. split; [reflexivity |].
  split; [rewrite midi_process_Some; reflexivity |].
  split; intros Hc; apply containsb_spec in Hc; vm_compute in Hc;
    discriminate.
Qed.

(** ** Opening the session *)

Lemma midi_open_eq (w : world) :
  midi_open w =
  if open_code w <? 0 then
    Exit 1 (emit ["ERROR: " ++ stringify "Could not open sequencer!"] (opened w))
  else if name_code w <? 0 then
    Exit 1 (emit ["ERROR: " ++ stringify "Could not set client name!"] (named w))
  else if port_code w <? 0 then
    Exit 1 (emit ["ERROR: " ++ stringify "Could not open port!"] (ported w))
  else Ret tt (ported w).
Proof.
  destruct w as [h e p a o d hi].
  cbv [midi_open CHK bind ret driver_answer modify puts exit emit
       open_code name_code port_code opened named ported
       set_history set_seq_handle set_in_port set_stdout
       seq_handle event in_port event_addr stdout drv history].
  destruct (snd_seq_open d hi) as [rc [hd |]]; cbn [fst snd];
    (destruct (rc <? 0); [reflexivity |]);
    rewrite <- !app_assoc; cbn [app];
    (destruct (snd_seq_set_client_name d (hi ++ [call_snd_seq_open]) <? 0);
       [reflexivity |]);
    destruct (snd_seq_create_simple_port d
                (hi ++ [call_snd_seq_open; call_snd_seq_set_client_name]) <? 0);
    rewrite <- ?app_assoc; reflexivity.
Qed.

(** ** The address of the slot never changes *)

Lemma opened_event_addr (w : world) : event_addr (opened w) = event_addr w.
Proof.
  unfold opened. destruct (snd (snd_seq_open (drv w) (history w))); reflexivity.
Qed.

Lemma invoke_event_addr (p : process) (c : api) :
  event_addr (world_of (invoke p c)) = event_addr (world_of p).
Proof.
  destruct p as [w | st w | w]; [| reflexivity | reflexivity].
  destruct c; cbn [invoke world_of].
  - rewrite midi_open_eq.
    destruct (open_code w <? 0); [apply opened_event_addr |].
    destruct (name_code w <? 0); [apply opened_event_addr |].
    destruct (port_code w <? 0); apply opened_event_addr.
  - destruct (next_input w) as [ev |] eqn:Hin.
    + rewrite (midi_read_Some ev w Hin). reflexivity.
    + rewrite (midi_read_NULL w Hin). reflexivity.
Qed.

Lemma run_event_addr (calls : list api) (p : process) :
  event_addr (world_of (run calls p)) = event_addr (world_of p).
Proof.
  revert p. induction calls as [| c calls IH]; intros p; [reflexivity |].
  cbn [run fold_left]. change (fold_left invoke calls (invoke p c))
    with (run calls (invoke p c)).
  rewrite IH. apply invoke_event_addr.
Qed.

Lemma read_addresses_constant (n : nat) (w : world) :
  Forall (fun p => p = event_addr w) (read_addresses n w).
Proof.
  revert w. induction n as [| n IH]; intros w; cbn [read_addresses];
    [constructor |].
  destruct (next_input w) as [ev |] eqn:Hin.
  - rewrite (midi_read_Some ev w Hin). constructor; [reflexivity |].
    exact (IH (emit _ (set_event (pack ev) (polled w)))).
  - rewrite (midi_read_NULL w Hin). constructor.
Qed.

(** ** The cursor *)

(** C7. The cursor is one slot and the last write wins.  When the driver
    delivers [A] to a read of [w] and [B] to the next one, the pointer the
    first read returned shows [A] after the first read and [B] after the
    second, so no longer [A] when the two differ; the second read
    returns the same pointer; and every read made at any later point of
    the session, whatever calls came before, returns it as well. *)
Theorem cursor_single_slot_last_write_wins
    (w : world) (A B : snd_seq_event_t) :
  next_input w = Some A ->
  next_input (polled w) = Some B ->
  exists (p1 : Z) (w1 : world) (p2 : Z) (w2 : world),
    midi_read w = Ret p1 w1 /\
    midi_read w1 = Ret p2 w2 /\
    load w1 p1 = Some (pack A) /\
    load w2 p1 = Some (pack B) /\
    (pack A <> pack B -> load w2 p1 <> Some (pack A)) /\
    p2 = p1 /\
    forall (calls : list api) (n : nat),
      Forall (fun p => p = p1)
             (read_addresses n (world_of (run calls (Running w)))).
Proof.
  intros HA HB.
  pose proof (midi_read_Some A w HA) as H1.
  set (w1 := emit _ _) in H1.
  assert (HB1 : next_input w1 = Some B) by exact HB.
  pose proof (midi_read_Some B w1 HB1) as H2.
  set (w2 := emit _ _) in H2.
  assert (Hload : load w2 (event_addr w) = Some (pack B)).
  { unfold load. change (event_addr w2) with (event_addr w).
    rewrite Z.eqb_refl. reflexivity. }
  exists (event_addr w), w1, (event_addr w1), w2.
  split; [exact H1 |]. split; [exact H2 |]. split.
  { unfold load. change (event_addr w1) with (event_addr w).
    rewrite Z.eqb_refl. reflexivity. }
  split; [exact Hload |]. split.
  { intros Hne. rewrite Hload. congruence. }
  split; [reflexivity |].
  intros calls n.
  pose proof (run_event_addr calls (Running w)) as Hrun.
  cbn [world_of] in Hrun. rewrite <- Hrun.
  apply read_addresses_constant.
Qed.

Lemma cursor_single_slot_last_write_wins_witness :
  exists (p1 : Z) (w1 : world) (p2 : Z) (w2 : world),
    midi_read sample_world = Ret p1 w1 /\
    midi_read w1 = Ret p2 w2 /\
    load w1 p1 = Some (pack ev_control) /\
    load w2 p1 = Some (pack ev_note_on) /\
    (pack ev_control <> pack ev_note_on ->
     load w2 p1 <> Some (pack ev_control)) /\
    p2 = p1 /\
    forall (calls : list api) (n : nat),
      Forall (fun p => p = p1)
             (read_addresses n (world_of (run calls (Running sample_world)))).
Proof.
  apply (cursor_single_slot_last_write_wins sample_world ev_control ev_note_on);
    reflexivity.
Defined.

(** The two sample events differ after normalisation, and a session
    that opens and then reads them hands out one address, twice. *)
Example sample_events_differ : pack ev_control <> pack ev_note_on.
Proof. vm_compute. discriminate. Qed.

Example sample_session_addresses :
  read_addresses 3 (world_of (run [call_midi_open] (Running sample_world)))
  = [6295648; 6295648].
Proof. vm_compute. reflexivity. Qed.

(** ** The order of a read cycle *)

(** C8, as the specification has it, fails.  In the read cycle of the
    sample world the line [create_pack] writes on storing the type in
    the slot does not come before the line [midi_process] writes on
    entry: it is the third line of the output, the other the first. *)
Lemma midi_read_does_not_normalize_first :
  ~ (exists (p : Z) (w' : world),
       midi_read sample_world = Ret p w' /\
       written_before "Internal event type 10" "Event type: 10" (stdout w')).
Proof.
  intros (p & w' & Hrun & i & j & Hi & Hj & Hlt).
  rewrite (midi_read_Some ev_control sample_world eq_refl) in Hrun.
  injection Hrun as _ <-.
  vm_compute in Hi, Hj.
  injection Hi as <-. injection Hj as <-. lia.
Qed.

(** C8, amended.  In every read cycle [midi_process] runs first, on the
    raw event the driver delivered: it writes its two lines and leaves
    the slot as it was, and what it writes does not depend on the
    content of the slot.  Only then does [create_pack] store the decoded
    event in the slot; [midi_read] ends by printing from the slot and
    returns its address. *)
Theorem midi_read_reports_raw_event_then_normalizes
    (w : world) (ev : snd_seq_event_t) :
  next_input w = Some ev ->
  exists w_reported w_packed : world,
    midi_process (Some ev) (polled w) = Ret tt w_reported /\
    event w_reported = event w /\
    stdout w_reported = (stdout w ++ process_lines ev)%list /\
    (forall e : ALSAEvent,
       exists w_any,
         midi_process (Some ev) (set_event e (polled w)) = Ret tt w_any /\
         stdout w_any = stdout w_reported) /\
    create_pack (Some ev) w_reported = Ret tt w_packed /\
    event w_packed = pack ev /\
    stdout w_packed = (stdout w_reported ++ pack_lines ev (event_addr w))%list /\
    midi_read w = Ret (event_addr w) (emit (dump_lines (pack ev)) w_packed).
Proof.
  intros Hin.
  exists (emit (process_lines ev) (polled w)).
  exists (emit (pack_lines ev (event_addr w))
            (set_event (pack ev) (emit (process_lines ev) (polled w)))).
  split; [apply midi_process_Some |].
  split; [reflexivity |]. split; [reflexivity |]. split.
  { intros e. eexists. split; [apply midi_process_Some |]. reflexivity. }
  split; [rewrite create_pack_Some; reflexivity |].
  split; [reflexivity |]. split; [reflexivity |].
  rewrite (midi_read_Some ev w Hin).
  destruct w as [h e p a o d hi].
  cbv [emit set_stdout set_event polled set_history
       seq_handle event in_port event_addr stdout drv history].
  rewrite <- !app_assoc. reflexivity.
Qed.

Lemma midi_read_reports_raw_event_then_normalizes_witness :
  exists w_reported w_packed : world,
    midi_process (Some ev_control) (polled sample_world) = Ret tt w_reported /\
    event w_reported = event sample_world /\
    stdout w_reported = (stdout sample_world ++ process_lines ev_control)%list /\
    (forall e : ALSAEvent,
       exists w_any,
         midi_process (Some ev_control) (set_event e (polled sample_world))
           = Ret tt w_any /\
         stdout w_any = stdout w_reported) /\
    create_pack (Some ev_control) w_reported = Ret tt w_packed /\
    event w_packed = pack ev_control /\
    stdout w_packed
      = (stdout w_reported
           ++ pack_lines ev_control (event_addr sample_world))%list /\
    midi_read sample_world
      = Ret (event_addr sample_world)
            (emit (dump_lines (pack ev_control)) w_packed).
Proof.
  apply (midi_read_reports_raw_event_then_normalizes sample_world ev_control).
  reflexivity.
Defined.

(** The output of the sample read cycle, line by line. *)
Example sample_read_cycle_output :
  exists w',
    midi_read sample_world = Ret 6295648 w' /\
    stdout w' =
    ["Event type: 10"; "[50] Control:  7 val(64)";
     "Internal event type 10"; "New event location 0x601060";
     "--== ALSA Event data: ==--"; "Type: 10"; "Note: 0"].
Proof.
  eexists. split; [apply (midi_read_Some ev_control); reflexivity |].
  vm_compute. reflexivity.
Qed.

(** ** Failure to open the session *)

(** C9. When a step of [midi_open] fails (the sequencer cannot be
    opened, the client name cannot be set, the port cannot be created),
    [midi_open] exits with status 1 after writing one line, which names
    the step.  The driver has been called once for each step up to the
    failing one and for nothing else; whatever the caller had planned
    after [midi_open] does not run, so no event is read. *)
Theorem midi_open_failure_exits (w : world) (calls : list api) :
  (open_code w < 0 ->
   exists w',
     midi_open w = Exit 1 w' /\
     stdout w' = (stdout w ++ [("ERROR: " ++ dq ++ "Could not open sequencer!" ++ dq)%string])%list /\
     history w' = (history w ++ [call_snd_seq_open])%list /\
     run (call_midi_open :: calls) (Running w) = Exited 1 w') /\
  (0 <= open_code w -> name_code w < 0 ->
   exists w',
     midi_open w = Exit 1 w' /\
     stdout w' = (stdout w ++ [("ERROR: " ++ dq ++ "Could not set client name!" ++ dq)%string])%list /\
     history w' = (history w ++ [call_snd_seq_open; call_snd_seq_set_client_name])%list /\
     run (call_midi_open :: calls) (Running w) = Exited 1 w') /\
  (0 <= open_code w -> 0 <= name_code w -> port_code w < 0 ->
   exists w',
     midi_open w = Exit 1 w' /\
     stdout w' = (stdout w ++ [("ERROR: " ++ dq ++ "Could not open port!" ++ dq)%string])%list /\
     history w' = (history w ++ [call_snd_seq_open; call_snd_seq_set_client_name;
                                 call_snd_seq_create_simple_port])%list /\
     run (call_midi_open :: calls) (Running w) = Exited 1 w').
Proof.
  assert (Hstop : forall st w', run calls (Exited st w') = Exited st w').
  { intros st w'. induction calls as [| c cs IH]; [reflexivity | exact IH]. }
  assert (Hhist : history (opened w) = (history w ++ [call_snd_seq_open])%list).
  { unfold opened.
    destruct (snd (snd_seq_open (drv w) (history w))); reflexivity. }
  assert (Hout : stdout (opened w) = stdout w).
  { unfold opened.
    destruct (snd (snd_seq_open (drv w) (history w))); reflexivity. }
  split; [| split].
  - intros H1. apply Z.ltb_lt in H1.
    eexists. split; [rewrite midi_open_eq, H1; reflexivity |].
    split; [cbn; rewrite Hout; reflexivity |].
    split; [exact Hhist |].
    cbn [run fold_left invoke]. rewrite midi_open_eq, H1. apply Hstop.
  - intros H1 H2. apply Z.ltb_ge in H1. apply Z.ltb_lt in H2.
    eexists. split; [rewrite midi_open_eq, H1, H2; reflexivity |].
    split; [cbn; rewrite Hout; reflexivity |].
    split; [reflexivity |].
    cbn [run fold_left invoke]. rewrite midi_open_eq, H1, H2. apply Hstop.
  - intros H1 H2 H3.
    apply Z.ltb_ge in H1. apply Z.ltb_ge in H2. apply Z.ltb_lt in H3.
    eexists. split; [rewrite midi_open_eq, H1, H2, H3; reflexivity |].
    split; [cbn; rewrite Hout; reflexivity |].
    split; [reflexivity |].
    cbn [run fold_left invoke]. rewrite midi_open_eq, H1, H2, H3. apply Hstop.
Qed.

Lemma midi_open_failure_exits_witness :
  (exists w',
     midi_open no_sequencer_world = Exit 1 w' /\
     stdout w' = [("ERROR: " ++ dq ++ "Could not open sequencer!" ++ dq)%string] /\
     history w' = [call_snd_seq_open] /\
     run [call_midi_open; call_midi_read; call_midi_read]
         (Running no_sequencer_world) = Exited 1 w') /\
  (exists w',
     midi_open no_client_name_world = Exit 1 w' /\
     stdout w' = [("ERROR: " ++ dq ++ "Could not set client name!" ++ dq)%string] /\
     history w' = [call_snd_seq_open; call_snd_seq_set_client_name] /\
     run [call_midi_open; call_midi_read; call_midi_read]
         (Running no_client_name_world) = Exited 1 w') /\
  (exists w',
     midi_open no_port_world = Exit 1 w' /\
     stdout w' = [("ERROR: " ++ dq ++ "Could not open port!" ++ dq)%string] /\
     history w' = [call_snd_seq_open; call_snd_seq_set_client_name;
                   call_snd_seq_create_simple_port] /\
     run [call_midi_open; call_midi_read; call_midi_read]
         (Running no_port_world) = Exited 1 w').
Proof.
  split; [| split].
  - apply (proj1 (midi_open_failure_exits no_sequencer_world
                    [call_midi_read; call_midi_read])).
    vm_compute. reflexivity.
  - apply (proj1 (proj2 (midi_open_failure_exits no_client_name_world
                           [call_midi_read; call_midi_read]))).
    + vm_compute. discriminate.
    + vm_compute. reflexivity.
  - apply (proj2 (proj2 (midi_open_failure_exits no_port_world
                           [call_midi_read; call_midi_read]))).
    + vm_compute. discriminate.
    + vm_compute. discriminate.
    + vm_compute. reflexivity.
Defined.

(** When the three steps succeed [midi_open] returns, and the reads the
    caller makes afterwards do reach the driver. *)
Example sample_session_opens :
  exists w',
    midi_open sample_world = Ret tt w' /\
    stdout w' = [] /\
    history (world_of (run [call_midi_open; call_midi_read]
                           (Running sample_world)))
    = [call_snd_seq_open; call_snd_seq_set_client_name;
       call_snd_seq_create_simple_port; call_snd_seq_event_input].
Proof.
  eexists. split; [rewrite midi_open_eq; vm_compute; reflexivity |].
  split; vm_compute; reflexivity.
Qed.

(** ** Reading without an event *)

(** C10. [midi_read_raw] returns the pointer the driver call stored, or
    the [NULL] it started from, and the return code plays no part;
    [midi_process] and [create_pack] fault on [NULL]; hence [midi_read]
    returns when the driver delivered an event and faults, before it has
    written a line or touched the slot, when it did not. *)
Theorem midi_read_needs_delivered_event (w : world) :
  midi_read_raw w = Ret (next_input w) (polled w) /\
  midi_process NULL w = Fault w /\
  create_pack NULL w = Fault w /\
  (forall ev : snd_seq_event_t,
     next_input w = Some ev ->
     exists w', midi_read w = Ret (event_addr w) w') /\
  (next_input w = NULL ->
   midi_read w = Fault (polled w) /\
   stdout (polled w) = stdout w /\
   event (polled w) = event w).
Proof.
  split; [reflexivity |]. split; [reflexivity |]. split; [reflexivity |].
  split.
  - intros ev Hin. eexists. apply (midi_read_Some ev w Hin).
  - intros Hin. split; [apply (midi_read_NULL w Hin) |].
    split; reflexivity.
Qed.

Lemma midi_read_needs_delivered_event_witness :
  (exists w', midi_read sample_world = Ret (event_addr sample_world) w') /\
  (exists w', midi_read (initial_world odd_driver 6295648) = Ret 6295648 w') /\
  midi_read no_port_world = Fault (polled no_port_world) /\
  midi_read silent_world = Fault (polled silent_world) /\
  stdout (polled silent_world) = [] /\
  event (polled silent_world) = zero_ALSAEvent.
Proof.
  split; [| split; [| split]].
  - apply (proj1 (proj2 (proj2 (proj2
      (midi_read_needs_delivered_event sample_world)))) ev_control).
    reflexivity.
  - apply (proj1 (proj2 (proj2 (proj2
      (midi_read_needs_delivered_event (initial_world odd_driver 6295648)))))
      ev_note_on).
    reflexivity.
  - apply (proj2 (proj2 (proj2 (proj2
      (midi_read_needs_delivered_event no_port_world))))).
    reflexivity.
  - apply (proj2 (proj2 (proj2 (proj2
      (midi_read_needs_delivered_event silent_world))))).
    reflexivity.
Defined.

(** * Further properties of the translation unit *)

(** ** [midi_open] *)

Lemma opened_frame (w : world) :
  event (opened w) = event w /\
  stdout (opened w) = stdout w /\
  in_port (opened w) = in_port w /\
  drv (opened w) = drv w /\
  history (opened w) = (history w ++ [call_snd_seq_open])%list /\
  seq_handle (opened w) =
    match snd (snd_seq_open (drv w) (history w)) with
    | Some h => h
    | None => seq_handle w
    end.
Proof.
  unfold opened.
  destruct (snd (snd_seq_open (drv w) (history w))); repeat split.
Qed.

Lemma count_inputs_app (h1 h2 : list driver_call) :
  count_inputs (h1 ++ h2) = (count_inputs h1 + count_inputs h2)%nat.
Proof. unfold count_inputs. rewrite filter_app, length_app. reflexivity. Qed.

(** X1. When the three session calls return non-negative codes,
    [midi_open] returns.  It has written nothing and left the slot
    alone; [in_port] holds the code of the port call, [seq_handle] the
    handle the driver stored (the old one when it stored none), and the
    driver has been called three times, in the order open, name, port. *)
Theorem midi_open_success (w : world) :
  0 <= open_code w -> 0 <= name_code w -> 0 <= port_code w ->
  exists w',
    midi_open w = Ret tt w' /\
    stdout w' = stdout w /\
    event w' = event w /\
    in_port w' = port_code w /\
    seq_handle w' =
      match snd (snd_seq_open (drv w) (history w)) with
      | Some h => h
      | None => seq_handle w
      end /\
    history w' =
      (history w ++ [call_snd_seq_open; call_snd_seq_set_client_name;
                     call_snd_seq_create_simple_port])%list.
Proof.
  intros H1 H2 H3.
  apply Z.ltb_ge in H1. apply Z.ltb_ge in H2. apply Z.ltb_ge in H3.
  destruct (opened_frame w) as (He & Ho & _ & _ & _ & Hh).
  exists (ported w). rewrite midi_open_eq, H1, H2, H3.
  split; [reflexivity |]. unfold ported.
  cbn [stdout event in_port seq_handle history set_in_port set_history].
  repeat split; assumption.
Qed.

Lemma midi_open_success_witness :
  exists w',
    midi_open steady_world = Ret tt w' /\
    stdout w' = [] /\
    event w' = zero_ALSAEvent /\
    in_port w' = 3 /\
    seq_handle w' = 4096 /\
    history w' = [call_snd_seq_open; call_snd_seq_set_client_name;
                  call_snd_seq_create_simple_port].
Proof.
  apply (midi_open_success steady_world); vm_compute; discriminate.
Defined.

(** X2. [midi_open] never faults and knows one exit status, 1.  It
    returns exactly when the three codes are non-negative (0 counts as
    success) and exits exactly when one of them, the earlier ones being
    non-negative, is negative.  Either way the slot is as before and no
    event has been asked of the driver. *)
Theorem midi_open_outcomes (w : world) :
  match midi_open w with
  | Ret _ w' =>
      0 <= open_code w /\ 0 <= name_code w /\ 0 <= port_code w /\
      event w' = event w /\
      count_inputs (history w') = count_inputs (history w)
  | Exit status w' =>
      status = 1 /\
      (open_code w < 0 \/
       0 <= open_code w /\ name_code w < 0 \/
       0 <= open_code w /\ 0 <= name_code w /\ port_code w < 0) /\
      event w' = event w /\
      count_inputs (history w') = count_inputs (history w)
  | Fault _ => False
  end.
Proof.
  destruct (opened_frame w) as (He & _ & _ & _ & Hh & _).
  assert (Hc1 : count_inputs (history (opened w)) = count_inputs (history w)).
  { rewrite Hh, count_inputs_app. cbn. lia. }
  assert (Hc2 : count_inputs (history (named w)) = count_inputs (history w)).
  { unfold named. cbn [history set_history].
    rewrite count_inputs_app. cbn. lia. }
  assert (Hc3 : count_inputs (history (ported w)) = count_inputs (history w)).
  { unfold ported. cbn [history set_history set_in_port].
    rewrite count_inputs_app. cbn. lia. }
  rewrite midi_open_eq.
  destruct (Z.ltb_spec (open_code w) 0) as [H1 | H1].
  { repeat split; auto. }
  destruct (Z.ltb_spec (name_code w) 0) as [H2 | H2].
  { repeat split; auto. }
  destruct (Z.ltb_spec (port_code w) 0) as [H3 | H3].
  { split; [reflexivity |]. split; [auto |]. split; [exact He |]. exact Hc3. }
  repeat split; auto.
Qed.

(** ** The content of the slot *)

Lemma bytes_at_div_mod (obj off w : Z) :
  0 <= off -> 0 <= w ->
  bytes_at obj off w = (obj / 2 ^ (8 * off)) mod 2 ^ (8 * w).
Proof.
  intros Hoff Hw. unfold bytes_at.
  rewrite Z.land_ones by lia. rewrite Z.shiftr_div_pow2 by lia. reflexivity.
Qed.

Lemma u32_s32 (z : Z) : u32 (s32 z) = u32 z.
Proof.
  unfold s32. rewrite testbit_31, !u32_mod.
  change (2 ^ 32) with 4294967296.
  destruct (Z.leb_spec 2147483648 (z mod 4294967296));
    Z.to_euclidean_division_equations; lia.
Qed.

(** X4. The members that share bytes of the raw event share their value
    in the slot: after [create_pack], [time_sec] equals [tick_time]
    (the [time] union) and [param] equals [duration] (the [data]
    union), for every raw event. *)
Theorem create_pack_union_members_coincide
    (ev : snd_seq_event_t) (w : world) :
  exists w',
    create_pack (Some ev) w = Ret tt w' /\
    time_sec (event w') = tick_time (event w') /\
    param (event w') = duration (event w').
Proof.
  destruct (create_pack_slot ev w) as (w' & Hrun & Hslot).
  exists w'. rewrite Hslot, pack_fields. repeat split; assumption.
Qed.

(** X5. Normalisation loses nothing of the two unions: the eight bytes
    of [time] and the twelve bytes of [data] of the raw event can be put
    together again from the members of the slot. *)
Theorem create_pack_keeps_all_union_bytes (ev : snd_seq_event_t) (w : world) :
  exists w',
    create_pack (Some ev) w = Ret tt w' /\
    type (event w') = ev_type ev /\
    time_bytes_of (event w') = bytes_at (raw_time ev) 0 8 /\
    data_bytes_of (event w') = bytes_at (raw_data ev) 0 12.
Proof.
  destruct (create_pack_slot ev w) as (w' & Hrun & Hslot).
  exists w'. rewrite Hslot, pack_fields. split; [exact Hrun |].
  split; [reflexivity |].
  unfold time_bytes_of, data_bytes_of.
  cbn [tick_time time_nano channel note velocity off_velocity duration value].
  unfold ev_time_tick, ev_time_time_tv_nsec, ev_data_note_channel,
    ev_data_note_note, ev_data_note_velocity, ev_data_note_off_velocity,
    ev_data_note_duration, ev_data_control_value.
  rewrite u32_s32, u32_word.
  rewrite !bytes_at_div_mod by lia.
  split.
  - generalize (raw_time ev). intros x.
    change (2 ^ (8 * 0)) with 1. change (2 ^ (8 * 4)) with 4294967296.
    change (2 ^ (8 * 8)) with 18446744073709551616.
    change (2 ^ 32) with 4294967296.
    Z.to_euclidean_division_equations. lia.
  - generalize (raw_data ev). intros x.
    change (2 ^ (8 * 0)) with 1. change (2 ^ (8 * 1)) with 256.
    change (2 ^ (8 * 2)) with 65536. change (2 ^ (8 * 3)) with 16777216.
    change (2 ^ (8 * 4)) with 4294967296.
    change (2 ^ (8 * 8)) with 18446744073709551616.
    change (2 ^ (8 * 12)) with 79228162514264337593543950336.
    change (2 ^ 8) with 256. change (2 ^ 16) with 65536.
    change (2 ^ 24) with 16777216. change (2 ^ 32) with 4294967296.
    change (2 ^ 64) with 18446744073709551616.
    Z.to_euclidean_division_equations. lia.
Qed.

(** ** Whole sessions *)

Lemma run_app (l1 l2 : list api) (p : process) :
  run (l1 ++ l2) p = run l2 (run l1 p).
Proof. apply fold_left_app. Qed.

Lemma run_stopped (calls : list api) (p : process) :
  (forall w, p <> Running w) -> run calls p = p.
Proof.
  intros Hp. induction calls as [| c calls IH]; [reflexivity |].
  cbn [run fold_left]. destruct p as [w | st w | w];
    [destruct (Hp w eq_refl) | exact IH | exact IH].
Qed.

Lemma last_cons {A : Type} (a d : A) (l : list A) :
  last (a :: l) d = last l a.
Proof.
  revert a d. induction l as [| b l IH]; intros a d; [reflexivity |].
  change (last (a :: b :: l) d) with (last (b :: l) d).
  rewrite (IH b d), (IH b a). reflexivity.
Qed.

(** One read of a delivered event, as a step of the process. *)
Lemma invoke_read_Some (w : world) (ev : snd_seq_event_t) :
  stored_by (drv w) (history w) = Some ev ->
  invoke (Running w) call_midi_read =
  Running (emit (cycle_lines (event_addr w) ev)
                (set_event (pack ev) (polled w))).
Proof.
  intros Hin. cbn [invoke]. rewrite (midi_read_Some ev w Hin). reflexivity.
Qed.

Lemma run_reads_delivered (evs : list snd_seq_event_t) (w : world) :
  delivers (drv w) (history w) evs ->
  exists w',
    run (reads (List.length evs)) (Running w) = Running w' /\
    event w' = last (map pack evs) (event w) /\
    stdout w' = (stdout w ++ List.concat (map (cycle_lines (event_addr w)) evs))%list /\
    history w' =
      (history w ++ repeat call_snd_seq_event_input (List.length evs))%list /\
    drv w' = drv w /\ event_addr w' = event_addr w /\
    seq_handle w' = seq_handle w /\ in_port w' = in_port w.
Proof.
  revert w. induction evs as [| ev evs IH]; intros w Hd.
  - exists w. cbn. rewrite !app_nil_r. repeat split.
  - destruct Hd as [Hev Hrest].
    set (w1 := emit (cycle_lines (event_addr w) ev)
                    (set_event (pack ev) (polled w))).
    destruct (IH w1 Hrest) as (w' & Hrun & He & Ho & Hh & Hd' & Ha & Hs & Hp).
    exists w'. split.
    { cbn [List.length reads repeat run fold_left].
      rewrite (invoke_read_Some w ev Hev). exact Hrun. }
    split.
    { rewrite He. cbn [map]. rewrite last_cons. reflexivity. }
    split.
    { rewrite Ho. cbn [map List.concat]. unfold w1, emit.
      cbn [stdout set_stdout set_event polled set_history event_addr].
      rewrite <- !app_assoc. reflexivity. }
    split.
    { rewrite Hh. unfold w1, emit, polled.
      cbn [history set_stdout set_event set_history List.length repeat].
      rewrite <- app_assoc. reflexivity. }
    repeat split; assumption.
Qed.

(** X6. Reads compose.  When the driver delivers the events [evs] to
    consecutive reads, that many calls of [midi_read] leave the process
    running, with the last of them in the slot (the slot is as before
    when there is none), seven more lines of output for each event, in
    the order of delivery, one more driver call for each, and
    [seq_handle] and [in_port] as they were. *)
Theorem consecutive_reads (w : world) (evs : list snd_seq_event_t) :
  delivers (drv w) (history w) evs ->
  exists w',
    run (reads (List.length evs)) (Running w) = Running w' /\
    event w' = last (map pack evs) (event w) /\
    stdout w' = (stdout w ++ List.concat (map (cycle_lines (event_addr w)) evs))%list /\
    List.length (stdout w') = (List.length (stdout w) + 7 * List.length evs)%nat /\
    history w' =
      (history w ++ repeat call_snd_seq_event_input (List.length evs))%list /\
    seq_handle w' = seq_handle w /\ in_port w' = in_port w.
Proof.
  intros Hd.
  destruct (run_reads_delivered evs w Hd)
    as (w' & Hrun & He & Ho & Hh & _ & _ & Hs & Hp).
  exists w'. repeat split; try assumption.
  rewrite Ho, length_app. f_equal.
  clear. induction evs as [| ev evs IH]; [reflexivity |].
  cbn [map List.concat]. rewrite length_app, IH. cbn [List.length cycle_lines
    process_lines pack_lines dump_lines app]. lia.
Qed.

Lemma consecutive_reads_witness :
  exists w',
    run (reads 2) (Running sample_world) = Running w' /\
    event w' = pack ev_note_on /\
    stdout w' = (cycle_lines 6295648 ev_control
                   ++ cycle_lines 6295648 ev_note_on)%list /\
    List.length (stdout w') = 14%nat /\
    history w' = [call_snd_seq_event_input; call_snd_seq_event_input] /\
    seq_handle w' = 0 /\ in_port w' = 0.
Proof.
  destruct (consecutive_reads sample_world [ev_control; ev_note_on])
    as (w' & Hrun & He & Ho & Hl & Hh & Hs & Hp).
  { cbn. repeat split. }
  exists w'. split; [exact Hrun |]. split; [exact He |].
  split; [rewrite Ho; vm_compute; reflexivity |].
  split; [exact Hl |]. split; [exact Hh |]. split; assumption.
Defined.

(** X7. A read that gets no event ends the session and keeps the last
    event.  When the driver delivers [evs] and then leaves [NULL], the
    read after them faults: the slot still holds the last event
    delivered, the failed read has written nothing, and no later call of
    the caller runs. *)
Theorem failed_read_ends_session
    (w : world) (evs : list snd_seq_event_t) (later : list api) :
  delivers (drv w) (history w) evs ->
  stored_by (drv w)
    (history w ++ repeat call_snd_seq_event_input (List.length evs)) = NULL ->
  exists w',
    run (reads (List.length evs) ++ call_midi_read :: later) (Running w)
      = Faulted w' /\
    event w' = last (map pack evs) (event w) /\
    stdout w' = (stdout w ++ List.concat (map (cycle_lines (event_addr w)) evs))%list /\
    history w' =
      (history w
         ++ repeat call_snd_seq_event_input (S (List.length evs)))%list.
Proof.
  intros Hd Hnull.
  destruct (run_reads_delivered evs w Hd)
    as (w' & Hrun & He & Ho & Hh & Hdrv & _ & _ & _).
  assert (Hin : next_input w' = NULL).
  { unfold next_input. rewrite Hdrv, Hh. exact Hnull. }
  exists (polled w'). split.
  { rewrite run_app, Hrun. cbn [run fold_left invoke].
    rewrite (midi_read_NULL w' Hin). apply run_stopped. discriminate. }
  split; [exact He |]. split; [exact Ho |].
  unfold polled. cbn [history set_history]. rewrite Hh, <- app_assoc.
  f_equal. change (S (List.length evs)) with (1 + List.length evs)%nat.
  rewrite Nat.add_comm, repeat_app. reflexivity.
Qed.

Lemma failed_read_ends_session_witness :
  exists w',
    run (reads 2 ++ call_midi_read :: [call_midi_open; call_midi_read])
        (Running sample_world) = Faulted w' /\
    event w' = pack ev_note_on /\
    stdout w' = (cycle_lines 6295648 ev_control
                   ++ cycle_lines 6295648 ev_note_on)%list /\
    history w' = repeat call_snd_seq_event_input 3.
Proof.
  destruct (failed_read_ends_session sample_world [ev_control; ev_note_on]
              [call_midi_open; call_midi_read])
    as (w' & Hrun & He & Ho & Hh).
  { cbn. repeat split. }
  { reflexivity. }
  exists w'. split; [exact Hrun |]. split; [exact He |].
  split; [rewrite Ho; vm_compute; reflexivity | exact Hh].
Defined.

Lemma count_reads_cons (c : api) (calls : list api) :
  count_reads (c :: calls) =
  ((match c with call_midi_read => 1 | call_midi_open => 0 end)
   + count_reads calls)%nat.
Proof. unfold count_reads. destruct c; reflexivity. Qed.

Lemma count_reads_le (calls : list api) :
  (count_reads calls <= List.length calls)%nat.
Proof. unfold count_reads. apply filter_length_le. Qed.

Lemma ported_frame (w : world) :
  drv (ported w) = drv w /\
  event_addr (ported w) = event_addr w /\
  stdout (ported w) = stdout w /\
  history (ported w) =
    (history w ++ [call_snd_seq_open; call_snd_seq_set_client_name;
                   call_snd_seq_create_simple_port])%list.
Proof.
  destruct (opened_frame w) as (_ & Ho & _ & Hd & _ & _).
  unfold ported. cbn [drv event_addr stdout history set_in_port set_history].
  rewrite opened_event_addr. repeat split; assumption.
Qed.

(** X8. With a driver that never fails nothing stops the process: after
    any sequence of calls of [midi_open] and [midi_read] it is still
    running.  Every [midi_read] has made one driver read and written
    seven lines; every [midi_open], the first one or a repeated one, has
    made its three driver calls again and written nothing. *)
Theorem dependable_driver_session (w : world) (calls : list api) :
  dependable (drv w) ->
  exists w',
    run calls (Running w) = Running w' /\
    count_inputs (history w') =
      (count_inputs (history w) + count_reads calls)%nat /\
    List.length (history w') =
      (List.length (history w)
       + 3 * (List.length calls - count_reads calls)
       + count_reads calls)%nat /\
    List.length (stdout w') =
      (List.length (stdout w) + 7 * count_reads calls)%nat.
Proof.
  revert w. induction calls as [| c calls IH]; intros w Hdep.
  - exists w. cbn. repeat split; lia.
  - pose proof (count_reads_le calls) as Hle.
    rewrite count_reads_cons. cbn [List.length run fold_left].
    destruct c.
    + destruct (Hdep (history w)) as (H1 & _).
      destruct (Hdep (history w ++ [call_snd_seq_open])%list) as (_ & H2 & _).
      destruct (Hdep (history w ++ [call_snd_seq_open;
                                    call_snd_seq_set_client_name])%list)
        as (_ & _ & H3 & _).
      apply Z.ltb_ge in H1, H2, H3.
      destruct (ported_frame w) as (Hd & _ & Ho & Hh).
      cbn [invoke]. rewrite midi_open_eq.
      unfold open_code, name_code, port_code. rewrite H1, H2, H3.
      cbn [settle].
      destruct (IH (ported w)) as (w' & Hrun & Hc & Hl & Hs).
      { rewrite Hd. exact Hdep. }
      exists w'. split; [exact Hrun |].
      rewrite Hc, Hl, Hs, Hh, Ho, count_inputs_app, length_app.
      cbn [count_inputs filter List.length]. repeat split; lia.
    + destruct (Hdep (history w)) as (_ & _ & _ & ev & Hev).
      rewrite (invoke_read_Some w ev Hev).
      set (w1 := emit _ _).
      destruct (IH w1 Hdep) as (w' & Hrun & Hc & Hl & Hs).
      exists w'. split; [exact Hrun |].
      rewrite Hc, Hl, Hs. unfold w1, emit, polled.
      cbn [history stdout set_stdout set_event set_history].
      rewrite count_inputs_app, !length_app.
      cbn [count_inputs filter List.length cycle_lines process_lines
           pack_lines dump_lines app].
      repeat split; lia.
Qed.

Lemma dependable_driver_session_witness :
  exists w',
    run [call_midi_open; call_midi_read; call_midi_open; call_midi_read]
        (Running steady_world) = Running w' /\
    count_inputs (history w') = 2%nat /\
    List.length (history w') = 8%nat /\
    List.length (stdout w') = 14%nat.
Proof.
  apply (dependable_driver_session steady_world
           [call_midi_open; call_midi_read; call_midi_open; call_midi_read]).
  intros h. cbn. repeat split; try lia. exists ev_note_on. reflexivity.
Defined.

(** One call, whatever the driver does. *)
Lemma invoke_extends (p : process) (c : api) :
  drv (world_of (invoke p c)) = drv (world_of p) /\
  (exists out,
     stdout (world_of (invoke p c)) = (stdout (world_of p) ++ out)%list) /\
  (exists h,
     history (world_of (invoke p c)) = (history (world_of p) ++ h)%list /\
     (count_inputs h <= count_reads [c])%nat).
Proof.
  destruct p as [w | st w | w]; cbn [invoke world_of];
    [| split; [reflexivity |]; split;
         [exists []; rewrite app_nil_r; reflexivity
         | exists []; rewrite app_nil_r; split; [reflexivity | cbn; lia]] ..].
  destruct c.
  - destruct (opened_frame w) as (_ & Ho & _ & Hd & Hh & _).
    destruct (ported_frame w) as (Hpd & _ & Hpo & Hph).
    rewrite midi_open_eq.
    destruct (open_code w <? 0); [| destruct (name_code w <? 0);
      [| destruct (port_code w <? 0)]];
      cbn [settle world_of emit named drv stdout history
           set_stdout set_history];
      rewrite ?Hd, ?Ho, ?Hh, ?Hpd, ?Hpo, ?Hph;
      (split; [reflexivity |]);
      (split; [eexists; reflexivity || (rewrite app_nil_r; reflexivity)
              | eexists; split; [reflexivity | cbn; lia]]).
  - destruct (next_input w) as [ev |] eqn:Hin.
    + rewrite (midi_read_Some ev w Hin).
      cbn [settle world_of emit polled drv stdout history
           set_stdout set_event set_history].
      split; [reflexivity |].
      split; [eexists; reflexivity |].
      eexists. split; [reflexivity | cbn; lia].
    + rewrite (midi_read_NULL w Hin).
      cbn [settle world_of polled drv stdout history set_history].
      split; [reflexivity |].
      split; [exists []; rewrite app_nil_r; reflexivity |].
      eexists. split; [reflexivity | cbn; lia].
Qed.

(** X9. Whatever the driver does and whatever the caller calls, the
    output and the driver history only grow, the driver and the address
    of the slot stay the same, and the driver has been asked for at most
    one event for each call of [midi_read]: no read is retried or made
    ahead. *)
Theorem session_is_append_only (w : world) (calls : list api) :
  drv (world_of (run calls (Running w))) = drv w /\
  event_addr (world_of (run calls (Running w))) = event_addr w /\
  (exists out,
     stdout (world_of (run calls (Running w))) = (stdout w ++ out)%list) /\
  (exists h,
     history (world_of (run calls (Running w))) = (history w ++ h)%list /\
     (count_inputs h <= count_reads calls)%nat).
Proof.
  split; [| split; [apply (run_event_addr calls (Running w)) |]].
  - change (drv w) with (drv (world_of (Running w))).
    generalize (Running w). induction calls as [| c calls IH]; intros p;
      [reflexivity |].
    cbn [run fold_left]. change (fold_left invoke calls (invoke p c))
      with (run calls (invoke p c)).
    rewrite IH. apply invoke_extends.
  - change (stdout w) with (stdout (world_of (Running w))).
    change (history w) with (history (world_of (Running w))).
    generalize (Running w). induction calls as [| c calls IH]; intros p.
    + split; exists []; rewrite app_nil_r; [| split]; reflexivity || cbn; lia.
    + cbn [run fold_left]. change (fold_left invoke calls (invoke p c))
        with (run calls (invoke p c)).
      destruct (IH (invoke p c)) as ((out2 & Ho2) & (h2 & Hh2 & Hc2)).
      destruct (invoke_extends p c) as (_ & (out1 & Ho1) & (h1 & Hh1 & Hc1)).
      split.
      * exists (out1 ++ out2)%list. rewrite Ho2, Ho1, app_assoc. reflexivity.
      * exists (h1 ++ h2)%list. split.
        -- rewrite Hh2, Hh1, app_assoc. reflexivity.
        -- rewrite count_inputs_app, count_reads_cons.
           rewrite count_reads_cons in Hc1. cbn [count_reads filter List.length]
             in Hc1. lia.
Qed.

(** ** The tick in the report line *)

Lemma s32_of_u32 (z : Z) :
  0 <= z < 4294967296 ->
  s32 z = if z <? 2147483648 then z else z - 4294967296.
Proof.
  intros Hz. unfold s32. rewrite testbit_31, u32_mod.
  change (2 ^ 32) with 4294967296.
  rewrite (Z.mod_small z 4294967296) by lia.
  destruct (Z.leb_spec 2147483648 z), (Z.ltb_spec z 2147483648);
    reflexivity || lia.
Qed.

(** X10. The report line and the slot disagree on late ticks.  In a
    read cycle the second line written starts with the tick of the slot
    as long as that is below 2^31; from 2^31 on it starts with the tick
    minus 2^32, a negative number, while the slot keeps the unsigned
    value. *)
Theorem report_line_tick_is_signed (w : world) (ev : snd_seq_event_t) :
  next_input w = Some ev ->
  exists (w' : world) (rest : string),
    midi_read w = Ret (event_addr w) w' /\
    tick_time (event w') = ev_time_tick ev /\
    0 <= tick_time (event w') < 4294967296 /\
    nth_error (stdout w') (S (List.length (stdout w))) =
      Some ("[" ++ fmt_d (if tick_time (event w') <? 2147483648
                          then tick_time (event w')
                          else tick_time (event w') - 4294967296)
                ++ "] " ++ rest).
Proof.
  intros Hin.
  assert (Hr : 0 <= ev_time_tick ev < 4294967296).
  { apply (bytes_at_range (raw_time ev) 0 4). lia. }
  assert (Hline : exists rest,
             report_line ev =
             "[" ++ fmt_d (s32 (ev_time_tick ev)) ++ "] " ++ rest).
  { unfold report_line.
    destruct (ev_type ev =? SND_SEQ_EVENT_NOTEON);
      [| destruct (ev_type ev =? SND_SEQ_EVENT_NOTEOFF);
         [| destruct (ev_type ev =? SND_SEQ_EVENT_CONTROLLER)]];
      eexists; reflexivity. }
  destruct Hline as (rest & Hline).
  eexists. exists rest. split; [apply (midi_read_Some ev w Hin) |].
  cbn [event emit set_stdout set_event stdout polled set_history].
  rewrite pack_fields. cbn [tick_time].
  split; [reflexivity |]. split; [exact Hr |].
  rewrite nth_error_app2 by lia.
  replace (S (List.length (stdout w)) - List.length (stdout w))%nat
    with 1%nat by lia.
  cbn [process_lines app nth_error].
  rewrite Hline, (s32_of_u32 _ Hr). reflexivity.
Qed.

Lemma report_line_tick_is_signed_witness :
  exists (w' : world) (rest : string),
    midi_read late_world = Ret 6295648 w' /\
    tick_time (event w') = 4294967295 /\
    0 <= tick_time (event w') < 4294967296 /\
    nth_error (stdout w') 1 =
      Some ("[" ++ fmt_d (if tick_time (event w') <? 2147483648
                          then tick_time (event w')
                          else tick_time (event w') - 4294967296)
                ++ "] " ++ rest).
Proof.
  apply (report_line_tick_is_signed late_world ev_late_note_on).
  reflexivity.
Defined.

(** The late note-on event: 4294967295 in the slot, -1 in the line. *)
Example late_tick_in_slot_and_line :
  exists w',
    midi_read late_world = Ret 6295648 w' /\
    tick_time (event w') = 4294967295 /\
    nth_error (stdout w') 1 = Some "[-1] Note on : 40 vel(7f)".
Proof.
  eexists. split; [apply (midi_read_Some ev_late_note_on); reflexivity |].
  vm_compute. split; reflexivity.
Qed.
